(** * Mama: a Telegram relay bot in front of four LLM providers

    Shallow embedding of [config.py], [ai_handler.py] and [bot.py], and the
    properties of the specification checked against it.

    Conventions of the embedding.
    - A Python [str] is the list of its code points ([list N]); [py "..."]
      writes an ASCII literal.  [len], slicing and [strip] then mean what they
      mean in Python (code points, Unicode white space).
    - A Python exception is a value of [exn]; a function that can raise
      returns a [result].
    - A [dict] built by a literal is an association list in the order of the
      literal; the two process-wide dicts of [bot.py] ([user_history],
      [_media_groups]) are finite maps.
    - The world outside the repository (provider endpoints, Telegram, the
      event loop's clock) is explicit: a transport oracle, an outbox, a timer
      table. *)

From Stdlib Require Import ZArith List String Ascii Lia.
From stdpp Require Import base option list gmap.

Local Open Scope Z_scope.

(** ** Python strings *)

Abbreviation pystr := (list N).

Definition py (s : string) : pystr :=
  (λ c, N_of_ascii c) <$> list_ascii_of_string s.

(** [str.isspace] for one code point: the table of CPython's
    [_PyUnicode_IsWhitespace]. *)
Definition isspace (c : N) : bool :=
  ((9 <=? c) && (c <=? 13) || (28 <=? c) && (c <=? 32)
   || (c =? 133) || (c =? 160) || (c =? 5760)
   || (8192 <=? c) && (c <=? 8202)
   || (c =? 8232) || (c =? 8233) || (c =? 8239) || (c =? 8287)
   || (c =? 12288))%N.

Fixpoint lstrip (s : pystr) : pystr :=
  match s with
  | c :: s' => if isspace c then lstrip s' else s
  | [] => []
  end.

Definition rstrip (s : pystr) : pystr := reverse (lstrip (reverse s)).

(** [s.strip()] *)
Definition strip (s : pystr) : pystr := rstrip (lstrip s).

(** Truthiness of a string: [if text:], [x or default]. *)
Definition truthy (s : pystr) : bool :=
  match s with [] => false | _ => true end.

Definition or_else (s dflt : pystr) : pystr := if truthy s then s else dflt.

(** ** Exceptions and results *)

Inductive exn : Type :=
| ValueError (msg : pystr)
| KeyError (key : pystr)
| IndexError (msg : pystr)
| TypeError (msg : pystr)
| AttributeError (msg : pystr)
| RuntimeError (msg : pystr)
| ProviderError (msg : pystr).   (* raised by a provider client or by httpx *)

(** [str(exc)], as the f-string of the failure handler formats it.  A
    [KeyError] prints the repr of its key; the keys of this program are plain
    identifiers, whose repr is the key between single quotes. *)
Definition str_exn (e : exn) : pystr :=
  match e with
  | KeyError k => py "'" ++ k ++ py "'"
  | ValueError m | IndexError m | TypeError m | AttributeError m
  | RuntimeError m | ProviderError m => m
  end.

Inductive result (A : Type) : Type :=
| Ok (a : A)
| Raise (e : exn).
Arguments Ok {A} a.
Arguments Raise {A} e.

Definition bind {A B} (m : result A) (k : A → result B) : result B :=
  match m with Ok a => k a | Raise e => Raise e end.

Notation "'do' x <- m ; k" := (bind m (λ x, k))
  (at level 10, x name, m at level 100, k at level 200).

Fixpoint mapM {A B} (f : A → result B) (l : list A) : result (list B) :=
  match l with
  | [] => Ok []
  | a :: l' => do b <- f a; do bs <- mapM f l'; Ok (b :: bs)
  end.

(** ** Python sequences: slices and [range] *)

(** A slice bound [i] on a sequence of length [n], as [PySlice_AdjustIndices]
    adjusts it for a positive step: a negative bound counts from the end, and
    both are clipped to [0..n]. *)
Definition clip_index (n i : Z) : Z :=
  if i <? 0 then Z.max 0 (i + n) else Z.min i n.

(** [l[lo:]] *)
Definition slice_from {A} (l : list A) (lo : Z) : list A :=
  drop (Z.to_nat (clip_index (Z.of_nat (length l)) lo)) l.

(** [l[lo:hi]] *)
Definition slice {A} (l : list A) (lo hi : Z) : list A :=
  let n := Z.of_nat (length l) in
  let a := clip_index n lo in
  let b := clip_index n hi in
  take (Z.to_nat (b - a)) (drop (Z.to_nat a) l).

(** Number of elements of [range(start, stop, step)] for [step <> 0]. *)
Definition range_len (start stop step : Z) : Z :=
  if 0 <? step then
    if start <? stop then (stop - start - 1) / step + 1 else 0
  else
    if stop <? start then (start - stop - 1) / (- step) + 1 else 0.

(** [range(start, stop, step)], which raises on a zero step. *)
Definition py_range (start stop step : Z) : result (list Z) :=
  if step =? 0 then Raise (ValueError (py "range() arg 3 must not be zero"))
  else Ok ((λ k : nat, start + Z.of_nat k * step)
             <$> seq 0 (Z.to_nat (range_len start stop step))).

(** ** config.py *)

Record Config : Type := {
  TELEGRAM_BOT_TOKEN : pystr;
  AI_PROVIDER : pystr;      (* already lower-cased by the module *)
  AI_API_KEY : pystr;
  AI_MODEL : pystr;
  MAX_HISTORY : Z           (* int(os.getenv(...)): any integer *)
}.

Definition DEFAULT_MODELS : list (pystr * pystr) :=
  [ (py "openai", py "gpt-4o");
    (py "gemini", py "gemini-1.5-pro");
    (py "anthropic", py "claude-3-5-sonnet-20241022");
    (py "openrouter", py "google/gemini-2.0-flash-001") ].

(** [d.get(k, dflt)] on a dict literal. *)
Fixpoint dict_get {V} (d : list (pystr * V)) (k : pystr) : option V :=
  match d with
  | [] => None
  | (k', v) :: d' => if decide (k' = k) then Some v else dict_get d' k
  end.

Definition get_model (cfg : Config) : pystr :=
  or_else (AI_MODEL cfg)
    (default (py "google/gemini-2.0-flash-001")
       (dict_get DEFAULT_MODELS (AI_PROVIDER cfg))).

(** ** ai_handler.py: the internal history and the wire values *)

(** A part is a [dict] from field names to strings, in insertion order. *)
Abbreviation part := (list (pystr * pystr)).

(** [content] of a history item: [str | list[part]]. *)
Inductive content : Type :=
| CStr (s : pystr)
| CParts (ps : list part).

(** A history item, [{"role": ..., "content": ...}]. *)
Record item : Type := Item { role : pystr; item_content : content }.

#[local] Set Warnings "-register-all".

(** What goes over the wire and what comes back: JSON values.  The objects
    of the provider SDKs are read as the JSON they wrap. *)
Inductive json : Type :=
| JNull
| JBool (b : bool)
| JNum (z : Z)
| JStr (s : pystr)
| JArr (l : list json)
| JObj (o : list (pystr * json)).

(** [part[k]] *)
Definition part_get (p : part) (k : pystr) : result pystr :=
  match dict_get p k with
  | Some v => Ok v
  | None => Raise (KeyError k)
  end.

Definition PDF_PREFIX : pystr := py "[PDF Content]" ++ [10%N].

(** Body of the loop over parts: the wire parts appended for one part
    (one, or none when no branch matches). *)
Definition openai_part (p : part) : result (list json) :=
  do ty <- part_get p (py "type");
  if decide (ty = py "text") then
    do t <- part_get p (py "text");
    Ok [JObj [(py "type", JStr (py "text")); (py "text", JStr t)]]
  else if decide (ty = py "image_b64") then
    do mime <- part_get p (py "mime");
    do data <- part_get p (py "data");
    Ok [JObj [(py "type", JStr (py "image_url"));
              (py "image_url",
               JObj [(py "url",
                      JStr (py "data:" ++ mime ++ py ";base64," ++ data))])]]
  else if decide (ty = py "pdf_text") then
    do t <- part_get p (py "text");
    Ok [JObj [(py "type", JStr (py "text")); (py "text", JStr (PDF_PREFIX ++ t))]]
  else Ok [].

Definition gemini_part (p : part) : result (list json) :=
  do ty <- part_get p (py "type");
  if decide (ty = py "text") then
    do t <- part_get p (py "text");
    Ok [JObj [(py "text", JStr t)]]
  else if decide (ty = py "image_b64") then
    do mime <- part_get p (py "mime");
    do data <- part_get p (py "data");
    Ok [JObj [(py "inlineData",
               JObj [(py "mimeType", JStr mime); (py "data", JStr data)])]]
  else if decide (ty = py "pdf_text") then
    do t <- part_get p (py "text");
    Ok [JObj [(py "text", JStr (PDF_PREFIX ++ t))]]
  else Ok [].

Definition anthropic_part (p : part) : result (list json) :=
  do ty <- part_get p (py "type");
  if decide (ty = py "text") then
    do t <- part_get p (py "text");
    Ok [JObj [(py "type", JStr (py "text")); (py "text", JStr t)]]
  else if decide (ty = py "image_b64") then
    do mime <- part_get p (py "mime");
    do data <- part_get p (py "data");
    Ok [JObj [(py "type", JStr (py "image"));
              (py "source",
               JObj [(py "type", JStr (py "base64"));
                     (py "media_type", JStr mime);
                     (py "data", JStr data)])]]
  else if decide (ty = py "pdf_text") then
    do t <- part_get p (py "text");
    Ok [JObj [(py "type", JStr (py "text")); (py "text", JStr (PDF_PREFIX ++ t))]]
  else Ok [].

(** [parts = []; for part in content: ...] *)
Definition parts_loop (body : part → result (list json)) (ps : list part)
  : result (list json) :=
  do xs <- mapM body ps; Ok (concat xs).

Definition openai_message (it : item) : result json :=
  match item_content it with
  | CStr s => Ok (JObj [(py "role", JStr (role it)); (py "content", JStr s)])
  | CParts ps =>
      do parts <- parts_loop openai_part ps;
      Ok (JObj [(py "role", JStr (role it)); (py "content", JArr parts)])
  end.

Definition _build_openai_messages (history : list item) : result (list json) :=
  mapM openai_message history.

Definition gemini_content (it : item) : result json :=
  let r := if decide (role it = py "user") then py "user" else py "model" in
  do parts <-
    match item_content it with
    | CStr s => Ok [JObj [(py "text", JStr s)]]
    | CParts ps => parts_loop gemini_part ps
    end;
  Ok (JObj [(py "role", JStr r); (py "parts", JArr parts)]).

Definition _build_gemini_contents (history : list item) : result (list json) :=
  mapM gemini_content history.

Definition anthropic_message (it : item) : result json :=
  match item_content it with
  | CStr s => Ok (JObj [(py "role", JStr (role it)); (py "content", JStr s)])
  | CParts ps =>
      do parts <- parts_loop anthropic_part ps;
      Ok (JObj [(py "role", JStr (role it)); (py "content", JArr parts)])
  end.

Definition _build_anthropic_messages (history : list item) : result (list json) :=
  mapM anthropic_message history.

(** *** Provider calls

    A call leaves the program as a [request]; the answer of the outside world
    is the response body, or the exception the client raised (no connection,
    a status that [raise_for_status] rejects, ...). *)

Definition OPENROUTER_BASE_URL : pystr := py "https://openrouter.ai/api/v1".

Inductive request : Type :=
| ChatCompletions (api_key : pystr) (base_url : option pystr)
    (model : pystr) (messages : list json)
| HttpxPost (url : pystr) (payload : json) (timeout : Z)
| AnthropicMessages (api_key : pystr) (model : pystr) (max_tokens : Z)
    (messages : list json).

Abbreviation transport := (request → result json).

(** [j[k]] on a dict, [j.k] on an SDK object.  The model reads an SDK object
    as the dict it wraps: where the field is absent both raise, the SDK
    object an [AttributeError] or a [TypeError] one step later, the dict the
    [KeyError] given here. *)
Definition jget (j : json) (k : pystr) : result json :=
  match j with
  | JObj o =>
      match dict_get o k with
      | Some v => Ok v
      | None => Raise (KeyError k)
      end
  | _ => Raise (TypeError (py "object is not subscriptable"))
  end.

(** [j[0]] *)
Definition jfirst (j : json) : result json :=
  match j with
  | JArr (x :: _) => Ok x
  | JArr [] => Raise (IndexError (py "list index out of range"))
  | _ => Raise (TypeError (py "object is not subscriptable"))
  end.

(** The name Python gives the type of a value that is no string. *)
Definition type_name (j : json) : pystr :=
  match j with
  | JNull => py "NoneType"
  | JBool _ => py "bool"
  | JNum _ => py "int"
  | JStr _ => py "str"
  | JArr _ => py "list"
  | JObj _ => py "dict"
  end.

(** [j.strip()] *)
Definition jstrip (j : json) : result pystr :=
  match j with
  | JStr s => Ok (strip s)
  | _ => Raise (AttributeError
                  (py "'" ++ type_name j ++ py "' object has no attribute 'strip'"))
  end.

(** [response.choices[0].message.content.strip()] *)
Definition openai_reply (response : json) : result pystr :=
  do choices <- jget response (py "choices");
  do c <- jfirst choices;
  do m <- jget c (py "message");
  do t <- jget m (py "content");
  jstrip t.

(** [data["candidates"][0]["content"]["parts"][0]["text"].strip()] *)
Definition gemini_reply (data : json) : result pystr :=
  do cands <- jget data (py "candidates");
  do c <- jfirst cands;
  do ct <- jget c (py "content");
  do ps <- jget ct (py "parts");
  do p <- jfirst ps;
  do t <- jget p (py "text");
  jstrip t.

(** [response.content[0].text.strip()] *)
Definition anthropic_reply (response : json) : result pystr :=
  do ct <- jget response (py "content");
  do b <- jfirst ct;
  do t <- jget b (py "text");
  jstrip t.

Section Provider.
Variable cfg : Config.
Variable net : transport.

Definition openai_request (history : list item) : result request :=
  do messages <- _build_openai_messages history;
  Ok (ChatCompletions (AI_API_KEY cfg) None (get_model cfg) messages).

Definition openrouter_request (history : list item) : result request :=
  do messages <- _build_openai_messages history;
  Ok (ChatCompletions (AI_API_KEY cfg) (Some OPENROUTER_BASE_URL)
        (get_model cfg) messages).

Definition gemini_request (history : list item) : result request :=
  let url :=
    py "https://generativelanguage.googleapis.com/v1beta/models/"
    ++ get_model cfg ++ py ":generateContent?key=" ++ AI_API_KEY cfg in
  do contents <- _build_gemini_contents history;
  Ok (HttpxPost url (JObj [(py "contents", JArr contents)]) 60).

Definition anthropic_request (history : list item) : result request :=
  do messages <- _build_anthropic_messages history;
  Ok (AnthropicMessages (AI_API_KEY cfg) (get_model cfg) 4096 messages).

Definition _ask_openai (history : list item) : result pystr :=
  do rq <- openai_request history;
  do response <- net rq;
  openai_reply response.

Definition _ask_openrouter (history : list item) : result pystr :=
  do rq <- openrouter_request history;
  do response <- net rq;
  openai_reply response.

Definition _ask_gemini (history : list item) : result pystr :=
  do rq <- gemini_request history;
  do data <- net rq;
  gemini_reply data.

Definition _ask_anthropic (history : list item) : result pystr :=
  do rq <- anthropic_request history;
  do response <- net rq;
  anthropic_reply response.

Definition ask_ai (history : list item) : result pystr :=
  if decide (AI_PROVIDER cfg = py "openrouter") then _ask_openrouter history
  else if decide (AI_PROVIDER cfg = py "openai") then _ask_openai history
  else if decide (AI_PROVIDER cfg = py "gemini") then _ask_gemini history
  else if decide (AI_PROVIDER cfg = py "anthropic") then _ask_anthropic history
  else Raise (ValueError
                (py "Unknown AI_PROVIDER: '" ++ AI_PROVIDER cfg
                 ++ py "'. Use: openrouter | openai | gemini | anthropic")).
End Provider.

(** *** Part constructors *)

Definition B64_ALPHABET : pystr :=
  py "ABCDEFGHIJKLMNOPQRSTUVWXYZabcdefghijklmnopqrstuvwxyz0123456789+/".

Definition b64_digit (n : N) : N := nth (N.to_nat n) B64_ALPHABET 0%N.

(** [base64.b64encode(data).decode()]: three bytes to four digits, the tail
    padded with ['=']. *)
Fixpoint b64encode (data : list Byte.byte) : pystr :=
  match data with
  | a :: b :: c :: rest =>
      let n := (Byte.to_N a * 65536 + Byte.to_N b * 256 + Byte.to_N c)%N in
      b64_digit (n / 262144) :: b64_digit (n / 4096 mod 64)
        :: b64_digit (n / 64 mod 64) :: b64_digit (n mod 64)
        :: b64encode rest
  | [a; b] =>
      let n := (Byte.to_N a * 65536 + Byte.to_N b * 256)%N in
      [b64_digit (n / 262144); b64_digit (n / 4096 mod 64);
       b64_digit (n / 64 mod 64); 61%N]
  | [a] =>
      let n := (Byte.to_N a * 65536)%N in
      [b64_digit (n / 262144); b64_digit (n / 4096 mod 64); 61%N; 61%N]
  | [] => []
  end.

Definition encode_image_bytes (data : list Byte.byte) (mime : pystr) : part :=
  [(py "type", py "image_b64"); (py "data", b64encode data); (py "mime", mime)].

Definition make_text_part (text : pystr) : part :=
  [(py "type", py "text"); (py "text", text)].

Definition make_pdf_part (text : pystr) : part :=
  [(py "type", py "pdf_text"); (py "text", text)].

(** ** bot.py *)

(** The part of a Telegram update the handlers read.  File downloads are
    taken as done: the bytes of the highest-resolution photo come with the
    update. *)
Record Update : Type := {
  effective_user_id : Z;
  effective_chat : Z;
  message_text : pystr;
  message_caption : option pystr;
  media_group_id : option pystr;
  photo_bytes : list Byte.byte
}.

(** What a handler does to the outside, in order. *)
Inductive effect : Type :=
| SendAction (chat : Z) (action : pystr)
| ReplyText (chat : Z) (text : pystr)
| AskAI (history : list item).     (* the call [ask_ai(user_history[uid])] *)

(** An entry of [_media_groups]. *)
Record Group : Type := {
  g_parts : list part;
  g_caption : pystr;
  g_update : Update;
  g_uid : Z;
  g_task : option nat       (* the handle [call_later] returned *)
}.

(** A callback scheduled with [call_later]: it runs
    [_flush_media_group(t_mgid)] once the clock reaches [t_due]. *)
Record Timer : Type := { t_id : nat; t_due : N; t_mgid : pystr }.

(** The process state: the two module-level dicts, the event loop's pending
    timers and clock (in milliseconds), and the trace of effects so far. *)
Record World : Type := {
  user_history : gmap Z (list item);
  _media_groups : gmap pystr Group;
  timers : list Timer;
  next_handle : nat;
  now : N;
  trace : list effect
}.

Definition with_history (f : gmap Z (list item) → gmap Z (list item)) (w : World) :=
  {| user_history := f (user_history w); _media_groups := _media_groups w;
     timers := timers w; next_handle := next_handle w; now := now w;
     trace := trace w |}.

Definition with_groups (f : gmap pystr Group → gmap pystr Group) (w : World) :=
  {| user_history := user_history w; _media_groups := f (_media_groups w);
     timers := timers w; next_handle := next_handle w; now := now w;
     trace := trace w |}.

Definition with_timers (f : list Timer → list Timer) (w : World) :=
  {| user_history := user_history w; _media_groups := _media_groups w;
     timers := f (timers w); next_handle := next_handle w; now := now w;
     trace := trace w |}.

Definition with_next_handle (n : nat) (w : World) :=
  {| user_history := user_history w; _media_groups := _media_groups w;
     timers := timers w; next_handle := n; now := now w; trace := trace w |}.

Definition with_now (t : N) (w : World) :=
  {| user_history := user_history w; _media_groups := _media_groups w;
     timers := timers w; next_handle := next_handle w; now := t;
     trace := trace w |}.

Definition with_trace (f : list effect → list effect) (w : World) :=
  {| user_history := user_history w; _media_groups := _media_groups w;
     timers := timers w; next_handle := next_handle w; now := now w;
     trace := f (trace w) |}.

(** The history of [uid] as a reader sees it ([user_history[uid]]). *)
Definition history_at (w : World) (uid : Z) : list item :=
  default [] (user_history w !! uid).

Definition empty_world : World :=
  {| user_history := ∅; _media_groups := ∅; timers := []; next_handle := 0%nat;
     now := 0%N; trace := [] |}.

(** Handlers run in a state monad over [World] in which a raised exception
    keeps the state reached so far, as in Python. *)
Definition M (A : Type) : Type := World → result A * World.

Definition ret {A} (a : A) : M A := λ w, (Ok a, w).

Definition raise {A} (e : exn) : M A := λ w, (Raise e, w).

Definition bindM {A B} (m : M A) (k : A → M B) : M B :=
  λ w, match m w with
       | (Ok a, w') => k a w'
       | (Raise e, w') => (Raise e, w')
       end.

Definition lift {A} (r : result A) : M A := λ w, (r, w).

Notation "'act' x <- m ; k" := (bindM m (λ x, k))
  (at level 10, x name, m at level 100, k at level 200).
Notation "m ;; k" := (bindM m (λ _, k))
  (at level 100, k at level 200, right associativity).

Fixpoint for_each {A} (l : list A) (body : A → M unit) : M unit :=
  match l with
  | [] => ret tt
  | a :: l' => body a ;; for_each l' body
  end.

Definition emit (e : effect) : M unit :=
  λ w, (Ok tt, with_trace (λ t, t ++ [e]) w).

(** [user_history[uid]]: a [defaultdict(list)], so reading a missing key
    stores the empty list under it. *)
Definition history_of (uid : Z) : M (list item) :=
  λ w, let h := default [] (user_history w !! uid) in
       (Ok h, with_history (insert uid h) w).

(** [user_history[uid] = h] *)
Definition history_set (uid : Z) (h : list item) : M unit :=
  λ w, (Ok tt, with_history (insert uid h) w).

(** [user_history[uid].append(it)] *)
Definition history_append (uid : Z) (it : item) : M unit :=
  act h <- history_of uid; history_set uid (h ++ [it]).

(** [user_history[uid].pop()] *)
Definition history_pop (uid : Z) : M item :=
  act h <- history_of uid;
  match last h with
  | Some it => history_set uid (removelast h) ;; ret it
  | None => raise (IndexError (py "pop from empty list"))
  end.

Definition _MEDIA_GROUP_TIMEOUT : N := 1500.   (* 1.5 s *)

Definition PROMPT_ONE : pystr := py "Please describe what you see in this image.".
Definition PROMPT_MANY : pystr := py "Please describe what you see in these images.".

(** [[text[i : i + size] for i in range(0, max(len(text), 1), size)]] *)
Definition _split {A} (text : list A) (size : Z) : result (list (list A)) :=
  do starts <- py_range 0 (Z.max (Z.of_nat (length text)) 1) size;
  Ok ((λ i, slice text i (i + size)) <$> starts).

(** The first [n] windows of width [s] over [l]: what [_split] computes,
    counted in [nat]. *)
Definition windows {A} (s n : nat) (l : list A) : list (list A) :=
  (λ k, take s (drop (k * s) l)) <$> seq 0 n.

(** The list [_trim_history] leaves under [uid]. *)
Definition trimmed (cfg : Config) (hist : list item) : list item :=
  let max_items := MAX_HISTORY cfg * 2 in
  if Z.of_nat (length hist) >? max_items
  then slice_from hist (- max_items)
  else hist.

Section Bot.
Variable cfg : Config.
Variable net : transport.
(** [_strip_markdown] is a pipeline of regular-expression substitutions on
    the reply; the handlers are parametric in it. *)
Variable _strip_markdown : pystr → pystr.

Definition _trim_history (uid : Z) : M unit :=
  act hist <- history_of uid;
  history_set uid (trimmed cfg hist).

Definition _reply_thinking (upd : Update) : M unit :=
  emit (SendAction (effective_chat upd) (py "typing")).

Definition reply_text (upd : Update) (text : pystr) : M unit :=
  emit (ReplyText (effective_chat upd) text).

(** U+26A0 U+FE0F, then the text of the f-string. *)
Definition AI_ERROR_PREFIX : pystr := [9888%N; 65039%N] ++ py " AI error: ".

Definition _send_ai_reply (upd : Update) (uid : Z) (user_parts : content)
  : M unit :=
  history_append uid (Item (py "user") user_parts) ;;
  _trim_history uid ;;
  _reply_thinking upd ;;
  act hist <- history_of uid;
  emit (AskAI hist) ;;
  match ask_ai cfg net hist with
  | Raise exc =>
      let reply := AI_ERROR_PREFIX ++ str_exn exc in
      act _ <- history_pop uid;          (* remove failed turn *)
      reply_text upd reply
  | Ok reply =>
      history_append uid (Item (py "assistant") (CStr reply)) ;;
      _trim_history uid ;;
      let clean_reply := _strip_markdown reply in
      act chunks <- lift (_split clean_reply 4096);
      for_each chunks (reply_text upd)
  end.

Definition handle_text (upd : Update) : M unit :=
  let uid := effective_user_id upd in
  let text := strip (message_text upd) in
  if negb (truthy text) then ret tt
  else _send_ai_reply upd uid (CStr text).

(** [existing.cancel()] *)
Definition cancel (h : nat) : M unit :=
  λ w, (Ok tt, with_timers (filter (λ t, t_id t ≠ h)) w).

(** [loop.call_later(_MEDIA_GROUP_TIMEOUT, lambda: ..._flush_media_group(mgid))] *)
Definition call_later (mgid : pystr) : M nat :=
  λ w, let h := next_handle w in
       (Ok h,
        with_next_handle (S h)
          (with_timers
             (λ ts, ts ++ [{| t_id := h; t_due := (now w + _MEDIA_GROUP_TIMEOUT)%N;
                              t_mgid := mgid |}]) w)).

Definition group_update (mgid : pystr) (f : Group → Group) : M unit :=
  λ w, (Ok tt, with_groups (alter f mgid) w).

Definition group_field {A} (mgid : pystr) (f : Group → A) : M A :=
  λ w, match _media_groups w !! mgid with
       | Some g => (Ok (f g), w)
       | None => (Raise (KeyError mgid), w)
       end.

Definition handle_photo (upd : Update) : M unit :=
  let uid := effective_user_id upd in
  let caption := strip (default [] (message_caption upd)) in
  let mgid := default [] (media_group_id upd) in
  if truthy mgid then
    let part := encode_image_bytes (photo_bytes upd) (py "image/jpeg") in
    (λ w, if decide (is_Some (_media_groups w !! mgid)) then (Ok tt, w)
          else (Ok tt,
                with_groups
                  (insert mgid {| g_parts := []; g_caption := [];
                                  g_update := upd; g_uid := uid;
                                  g_task := None |}) w)) ;;
    group_update mgid
      (λ g, {| g_parts := g_parts g ++ [part]; g_caption := g_caption g;
               g_update := g_update g; g_uid := g_uid g; g_task := g_task g |}) ;;
    (if truthy caption then
       group_update mgid
         (λ g, {| g_parts := g_parts g; g_caption := caption;
                  g_update := g_update g; g_uid := g_uid g; g_task := g_task g |})
     else ret tt) ;;
    act existing <- group_field mgid g_task;
    match existing with Some h => cancel h | None => ret tt end ;;
    act h <- call_later mgid;
    group_update mgid
      (λ g, {| g_parts := g_parts g; g_caption := g_caption g;
               g_update := g_update g; g_uid := g_uid g; g_task := Some h |})
  else
    let parts := [encode_image_bytes (photo_bytes upd) (py "image/jpeg")] in
    let question := or_else caption PROMPT_ONE in
    _send_ai_reply upd uid (CParts (parts ++ [make_text_part question])).

Definition _flush_media_group (mgid : pystr) : M unit :=
  act group <- (λ w, (Ok (_media_groups w !! mgid),
                      with_groups (delete mgid) w));
  match group with
  | None => ret tt
  | Some group =>
      let caption := or_else (g_caption group) PROMPT_MANY in
      _send_ai_reply (g_update group) (g_uid group)
        (CParts (g_parts group ++ [make_text_part caption]))
  end.


(** *** The event loop

    A handler runs to completion when its update arrives; what it raises is
    logged by the framework and the loop goes on. *)
Definition dispatch (h : M unit) (w : World) : World := snd (h w).

(** The pending timer that is due first at or before [deadline]
    (the earlier handle on a tie). *)
Fixpoint first_due (deadline : N) (ts : list Timer) : option Timer :=
  match ts with
  | [] => None
  | t :: ts' =>
      match first_due deadline ts' with
      | Some t' =>
          if ((t_due t <=? deadline) && (t_due t <=? t_due t'))%N
          then Some t else Some t'
      | None => if (t_due t <=? deadline)%N then Some t else None
      end
  end.

Fixpoint run_timers (fuel : nat) (deadline : N) (w : World) : World :=
  match fuel with
  | O => w
  | S fuel' =>
      match first_due deadline (timers w) with
      | None => w
      | Some t =>
          let w1 := with_now (N.max (now w) (t_due t))
                      (with_timers (filter (λ t', t_id t' ≠ t_id t)) w) in
          run_timers fuel' deadline (dispatch (_flush_media_group (t_mgid t)) w1)
      end
  end.

(** [d] milliseconds pass with no update: every timer that comes due runs,
    in order.  A flush schedules nothing, so one round per pending timer
    is enough. *)
Definition elapse (d : N) (w : World) : World :=
  let deadline := (now w + d)%N in
  with_now deadline (run_timers (length (timers w)) deadline w).

(** Photos arriving one after the other, each after its own delay. *)
Fixpoint arrivals (evs : list (N * Update)) (w : World) : World :=
  match evs with
  | [] => w
  | (gap, upd) :: evs' =>
      arrivals evs' (dispatch (handle_photo upd) (elapse gap w))
  end.
End Bot.

(** ** The request body and the provider responses *)

Definition result_map {A B} (f : A → B) (r : result A) : result B :=
  match r with Ok a => Ok (f a) | Raise e => Raise e end.

(** The JSON body a request carries (the keyword arguments of the SDK call,
    the [json=] payload of [httpx.post]). *)
Definition request_body (rq : request) : json :=
  match rq with
  | ChatCompletions _ _ model messages =>
      JObj [(py "model", JStr model); (py "messages", JArr messages)]
  | HttpxPost _ payload _ => payload
  | AnthropicMessages _ model max_tokens messages =>
      JObj [(py "model", JStr model); (py "max_tokens", JNum max_tokens);
            (py "messages", JArr messages)]
  end.

Definition request_base_url (rq : request) : option pystr :=
  match rq with
  | ChatCompletions _ base_url _ _ => base_url
  | _ => None
  end.

(** Responses that hold [text] in the field each adapter reads. *)
Definition openai_response (text : pystr) : json :=
  JObj [(py "choices",
         JArr [JObj [(py "message",
                      JObj [(py "role", JStr (py "assistant"));
                            (py "content", JStr text)])]])].

Definition gemini_response (text : pystr) : json :=
  JObj [(py "candidates",
         JArr [JObj [(py "content",
                      JObj [(py "parts", JArr [JObj [(py "text", JStr text)]]);
                            (py "role", JStr (py "model"))])]])].

Definition anthropic_response (text : pystr) : json :=
  JObj [(py "content",
         JArr [JObj [(py "type", JStr (py "text")); (py "text", JStr text)]])].

(** A provider that answers every request with [text], in the shape the
    request's endpoint uses. *)
Definition net_answer (text : pystr) : transport :=
  λ rq, match rq with
        | ChatCompletions _ _ _ _ => Ok (openai_response text)
        | HttpxPost _ _ _ => Ok (gemini_response text)
        | AnthropicMessages _ _ _ _ => Ok (anthropic_response text)
        end.


Definition PART_TYPES : list pystr := [py "text"; py "image_b64"; py "pdf_text"].

(** The part carries one of the three type tags the serializers handle. *)
Definition known_type (p : part) : bool :=
  match dict_get p (py "type") with
  | Some ty => bool_decide (ty ∈ PART_TYPES)
  | None => false
  end.

(** The part came out of one of the three constructors. *)
Definition constructed (p : part) : Prop :=
  (∃ text, p = make_text_part text)
  ∨ (∃ data mime, p = encode_image_bytes data mime)
  ∨ (∃ text, p = make_pdf_part text).

(** A turn whose content is a plain string. *)
Definition plain_text (it : item) : Prop := ∃ s, item_content it = CStr s.

(** A string that neither starts nor ends with white space. *)
Definition no_outer_space (s : pystr) : Prop :=
  (∀ c, head s = Some c → isspace c = false)
  ∧ (∀ c, last s = Some c → isspace c = false).

(** ** The translation table of the specification

    The internal model as the specification describes it, and the wire shape
    its table gives for each provider style. *)
Module Table.
Inductive Role : Type := User | Assistant.

Inductive Part : Type :=
| Text (text : pystr)
| Image (mime data : pystr)        (* [data]: the base64 payload *)
| PdfText (text : pystr).

Inductive TurnContent : Type :=
| PlainText (s : pystr)
| Parts (ps : list Part).

Record Turn : Type := { turn_role : Role; turn_content : TurnContent }.

(** How the program stores them. *)
Definition store_role (r : Role) : pystr :=
  match r with User => py "user" | Assistant => py "assistant" end.

Definition store_part (p : Part) : part :=
  match p with
  | Text t => make_text_part t
  | Image mime data =>
      [(py "type", py "image_b64"); (py "data", data); (py "mime", mime)]
  | PdfText t => make_pdf_part t
  end.

Definition store_turn (t : Turn) : item :=
  Item (store_role (turn_role t))
    match turn_content t with
    | PlainText s => CStr s
    | Parts ps => CParts (store_part <$> ps)
    end.

(** The rows of the table. *)
Definition openai_role (r : Role) : pystr :=
  match r with User => py "user" | Assistant => py "assistant" end.
Definition gemini_role (r : Role) : pystr :=
  match r with User => py "user" | Assistant => py "model" end.
Definition anthropic_role (r : Role) : pystr :=
  match r with User => py "user" | Assistant => py "assistant" end.

Definition openai_shape (p : Part) : json :=
  match p with
  | Text t => JObj [(py "type", JStr (py "text")); (py "text", JStr t)]
  | Image mime data =>
      JObj [(py "type", JStr (py "image_url"));
            (py "image_url",
             JObj [(py "url", JStr (py "data:" ++ mime ++ py ";base64," ++ data))])]
  | PdfText t =>
      JObj [(py "type", JStr (py "text"));
            (py "text", JStr (py "[PDF Content]" ++ [10%N] ++ t))]
  end.

Definition gemini_shape (p : Part) : json :=
  match p with
  | Text t => JObj [(py "text", JStr t)]
  | Image mime data =>
      JObj [(py "inlineData",
             JObj [(py "mimeType", JStr mime); (py "data", JStr data)])]
  | PdfText t => JObj [(py "text", JStr (py "[PDF Content]" ++ [10%N] ++ t))]
  end.

Definition anthropic_shape (p : Part) : json :=
  match p with
  | Text t => JObj [(py "type", JStr (py "text")); (py "text", JStr t)]
  | Image mime data =>
      JObj [(py "type", JStr (py "image"));
            (py "source",
             JObj [(py "type", JStr (py "base64"));
                   (py "media_type", JStr mime); (py "data", JStr data)])]
  | PdfText t =>
      JObj [(py "type", JStr (py "text"));
            (py "text", JStr (py "[PDF Content]" ++ [10%N] ++ t))]
  end.

Definition openai_turn (t : Turn) : json :=
  JObj [(py "role", JStr (openai_role (turn_role t)));
        (py "content",
         match turn_content t with
         | PlainText s => JStr s
         | Parts ps => JArr (openai_shape <$> ps)
         end)].

Definition gemini_turn (t : Turn) : json :=
  JObj [(py "role", JStr (gemini_role (turn_role t)));
        (py "parts",
         match turn_content t with
         | PlainText s => JArr [JObj [(py "text", JStr s)]]
         | Parts ps => JArr (gemini_shape <$> ps)
         end)].

Definition anthropic_turn (t : Turn) : json :=
  JObj [(py "role", JStr (anthropic_role (turn_role t)));
        (py "content",
         match turn_content t with
         | PlainText s => JStr s
         | Parts ps => JArr (anthropic_shape <$> ps)
         end)].
End Table.

(** ** Albums *)

(** The caption and the image part [handle_photo] takes from an update. *)
Definition caption_of (upd : Update) : pystr :=
  strip (default [] (message_caption upd)).

Definition image_of (upd : Update) : part :=
  encode_image_bytes (photo_bytes upd) (py "image/jpeg").

(** The caption a group holds after the photos [upds], from [acc] on: each
    non-empty caption replaces the one before. *)
Fixpoint stored_caption (acc : pystr) (upds : list Update) : pystr :=
  match upds with
  | [] => acc
  | u :: upds' =>
      stored_caption (if truthy (caption_of u) then caption_of u else acc) upds'
  end.

(** The world [w0] with the group [g] open on top of it: the photos so far
    in [parts], one live timer [h] due at [due], the clock at [t]. *)
Definition collecting (w0 : World) (g : pystr) (first : Update)
    (parts : list part) (cap : pystr) (h : nat) (due t : N) : World :=
  {| user_history := user_history w0;
     _media_groups :=
       <[g := {| g_parts := parts; g_caption := cap; g_update := first;
                 g_uid := effective_user_id first; g_task := Some h |}]>
         (_media_groups w0);
     timers := [{| t_id := h; t_due := due; t_mgid := g |}];
     next_handle := S h;
     now := t;
     trace := trace w0 |}.

(** ** pdf_handler.py *)

(** [sep.join(l)] *)
Fixpoint join (sep : pystr) (l : list pystr) : pystr :=
  match l with
  | [] => []
  | [x] => x
  | x :: l' => x ++ sep ++ join sep l'
  end.

Definition PDF_EMPTY : pystr := py "(PDF contains no extractable text)".

Section Pdf.
(** What [pypdf] makes of the bytes: opening the reader and listing its pages
    may raise; then each page's [extract_text()] gives a text or raises. *)
Variable read_pdf : list Byte.byte → result (list (result pystr)).

Definition extract_pdf_text (data : list Byte.byte) : pystr :=
  match (do reader_pages <- read_pdf data; mapM (λ page, page) reader_pages) with
  | Ok texts =>
      let pages := filter (λ text, truthy text = true) texts in
      if decide (pages = []) then PDF_EMPTY
      else join [10%N; 10%N] pages
  | Raise e => py "(Could not extract PDF text: " ++ str_exn e ++ py ")"
  end.
End Pdf.

(** ** bot.py: documents and commands *)

(** [s.startswith(p)] and [s.endswith(p)] *)
Fixpoint startswith (s p : pystr) : bool :=
  match p, s with
  | [], _ => true
  | c :: p', d :: s' => if decide (c = d) then startswith s' p' else false
  | _ :: _, [] => false
  end.

Definition endswith (s p : pystr) : bool := startswith (reverse s) (reverse p).

(** [update.message.document], with the bytes of the file as downloaded. *)
Record Document : Type := {
  mime_type : option pystr;
  file_name : option pystr;
  file_bytes : list Byte.byte
}.

Definition PDF_STORED : pystr :=
  [128196%N] ++ py " PDF received and stored as context." ++ [10%N]
  ++ py "Now ask me anything about it!".

Definition HISTORY_CLEARED : pystr :=
  [128465%N; 65039%N] ++ py " Conversation history cleared.".

Section Documents.
Variable cfg : Config.
Variable net : transport.
Variable _strip_markdown : pystr → pystr.
(** [str.lower], the built-in. *)
Variable lower : pystr → pystr.
Variable read_pdf : list Byte.byte → result (list (result pystr)).

Definition handle_document (upd : Update) (doc : Document) : M unit :=
  let uid := effective_user_id upd in
  let caption := strip (default [] (message_caption upd)) in
  let mime := default [] (mime_type doc) in
  let data := file_bytes doc in
  if startswith mime (py "image/") then
    let parts := [encode_image_bytes data mime] in
    let question := or_else caption PROMPT_ONE in
    _send_ai_reply cfg net _strip_markdown upd uid
      (CParts (parts ++ [make_text_part question]))
  else
    act is_pdf <-
      (if decide (mime = py "application/pdf") then ret true
       else match file_name doc with
            | Some name => ret (endswith (lower name) (py ".pdf"))
            | None =>
                raise (AttributeError
                         (py "'NoneType' object has no attribute 'lower'"))
            end);
    if is_pdf then
      emit (SendAction (effective_chat upd) (py "typing")) ;;
      let pdf_text := extract_pdf_text read_pdf data in
      let parts := [make_pdf_part pdf_text] in
      if truthy caption then
        _send_ai_reply cfg net _strip_markdown upd uid
          (CParts (parts ++ [make_text_part caption]))
      else
        history_append uid (Item (py "user") (CParts parts)) ;;
        _trim_history cfg uid ;;
        reply_text upd PDF_STORED
    else
      reply_text upd
        ([9888%N; 65039%N] ++ py " Unsupported file type: `"
         ++ or_else mime (default (py "None") (file_name doc))
         ++ py "`" ++ [10%N] ++ py "Please send an image or a PDF.").

Definition cmd_clear (upd : Update) : M unit :=
  let uid := effective_user_id upd in
  act _ <- history_of uid;
  history_set uid [] ;;
  reply_text upd HISTORY_CLEARED.

Definition cmd_model (upd : Update) : M unit :=
  reply_text upd
    (py "Provider: `" ++ AI_PROVIDER cfg ++ py "`" ++ [10%N]
     ++ py "Model: `" ++ get_model cfg ++ py "`").

(** What the application routes to the handlers above, and the passing of
    time. *)
Inductive event : Type :=
| TextMessage (upd : Update)
| PhotoMessage (upd : Update)
| DocumentMessage (upd : Update) (doc : Document)
| ClearCommand (upd : Update)
| ModelCommand (upd : Update)
| TimePasses (d : N).

Definition handle (e : event) (w : World) : World :=
  match e with
  | TextMessage upd => dispatch (handle_text cfg net _strip_markdown upd) w
  | PhotoMessage upd => dispatch (handle_photo cfg net _strip_markdown upd) w
  | DocumentMessage upd doc => dispatch (handle_document upd doc) w
  | ClearCommand upd => dispatch (cmd_clear upd) w
  | ModelCommand upd => dispatch (cmd_model upd) w
  | TimePasses d => elapse cfg net _strip_markdown d w
  end.

Definition run (es : list event) (w : World) : World :=
  fold_left (λ w e, handle e w) es w.
End Documents.

(** The first key the serializers look up in [p] and do not find: [type],
    then [text] for a text or PDF part, [mime] and then [data] for an image
    part. *)
Definition missing_key (p : part) : option pystr :=
  match dict_get p (py "type") with
  | None => Some (py "type")
  | Some ty =>
      if decide (ty = py "text") then
        match dict_get p (py "text") with None => Some (py "text") | _ => None end
      else if decide (ty = py "image_b64") then
        match dict_get p (py "mime"), dict_get p (py "data") with
        | None, _ => Some (py "mime")
        | Some _, None => Some (py "data")
        | Some _, Some _ => None
        end
      else if decide (ty = py "pdf_text") then
        match dict_get p (py "text") with None => Some (py "text") | _ => None end
      else None
  end.

(** Every part of every turn has the keys its type needs. *)
Definition complete_parts (it : item) : Prop :=
  match item_content it with
  | CStr _ => True
  | CParts ps => Forall (λ p, missing_key p = None) ps
  end.

(** A turn as the handlers store it: a user turn with a non-empty stripped
    text or a non-empty list of constructed parts, or an assistant turn with
    a stripped text. *)
Definition stored_turn (it : item) : Prop :=
  (role it = py "user"
   ∧ match item_content it with
     | CStr s => s ≠ [] ∧ no_outer_space s
     | CParts ps => ps ≠ [] ∧ Forall constructed ps
     end)
  ∨ (role it = py "assistant"
     ∧ ∃ s, item_content it = CStr s ∧ no_outer_space s).

(** The content of a user turn the handlers send. *)
Definition sendable (c : content) : Prop :=
  match c with
  | CStr s => s ≠ [] ∧ no_outer_space s
  | CParts ps => ps ≠ [] ∧ Forall constructed ps
  end.

(** The state the handlers keep: stored turns only, at most
    [2 * MAX_HISTORY] of them per user when [MAX_HISTORY] is positive, and
    constructed parts only in the open groups. *)
Definition well_formed (cfg : Config) (w : World) : Prop :=
  (∀ uid, Forall stored_turn (history_at w uid))
  ∧ (0 < MAX_HISTORY cfg →
     ∀ uid, Z.of_nat (length (history_at w uid)) ≤ 2 * MAX_HISTORY cfg)
  ∧ (∀ g grp, _media_groups w !! g = Some grp → Forall constructed (g_parts grp)).

(** ** Sample inputs *)

Definition sample_config (provider : pystr) (max_history : Z) : Config :=
  {| TELEGRAM_BOT_TOKEN := py "123456:bot-token"; AI_PROVIDER := provider;
     AI_API_KEY := py "sk-test"; AI_MODEL := []; MAX_HISTORY := max_history |}.

Definition user_turn (s : pystr) : item := Item (py "user") (CStr s).
Definition assistant_turn (s : pystr) : item := Item (py "assistant") (CStr s).

(** A provider that is down: every request raises. *)
Definition net_down : transport :=
  λ _, Raise (ProviderError (py "503 Service Unavailable")).

Definition text_update (uid : Z) (text : pystr) : Update :=
  {| effective_user_id := uid; effective_chat := uid; message_text := text;
     message_caption := None; media_group_id := None; photo_bytes := [] |}.

Definition photo_update (uid : Z) (mgid : option pystr) (caption : option pystr)
    (bytes : list Byte.byte) : Update :=
  {| effective_user_id := uid; effective_chat := uid; message_text := [];
     message_caption := caption; media_group_id := mgid; photo_bytes := bytes |}.

Definition document_update (uid : Z) (caption : option pystr) : Update :=
  {| effective_user_id := uid; effective_chat := uid; message_text := [];
     message_caption := caption; media_group_id := None; photo_bytes := [] |}.

(** [str.lower] on ASCII letters. *)
Definition ascii_lower (s : pystr) : pystr :=
  (λ c, if ((65 <=? c) && (c <=? 90))%N then (c + 32)%N else c) <$> s.

(** A reader that finds the given page texts in every file. *)
Definition pdf_pages (texts : list pystr) : list Byte.byte → result (list (result pystr)) :=
  λ _, Ok (Ok <$> texts).

(** * Properties *)

(** ** Base64, on the test vectors of RFC 4648 *)

Example b64_foobar :
  b64encode [Byte.x66; Byte.x6f; Byte.x6f; Byte.x62; Byte.x61; Byte.x72]
  = py "Zm9vYmFy".
Proof. reflexivity. Qed.

Example b64_fooba :
  b64encode [Byte.x66; Byte.x6f; Byte.x6f; Byte.x62; Byte.x61] = py "Zm9vYmE=".
Proof. reflexivity. Qed.

Example b64_foob :
  b64encode [Byte.x66; Byte.x6f; Byte.x6f; Byte.x62] = py "Zm9vYg==".
Proof. reflexivity. Qed.

Example b64_high_bytes : b64encode [Byte.xff; Byte.xfe; Byte.xfd] = py "//79".
Proof. reflexivity. Qed.

(** ** Slices and chunking *)

Section Slices.
Context {A : Type}.
Implicit Types l : list A.

(** A window that starts at a non-negative index. *)
Lemma slice_window l (a s : nat) :
  slice l (Z.of_nat a) (Z.of_nat a + Z.of_nat s) = take s (drop a l).
Proof.
  unfold slice, clip_index.
  destruct (Z.ltb_spec (Z.of_nat a) 0) as [?|_]; [lia|].
  destruct (Z.ltb_spec (Z.of_nat a + Z.of_nat s) 0) as [?|_]; [lia|].
  destruct (decide (a ≤ length l)%nat) as [Hle|Hgt].
  - replace (Z.to_nat (Z.min (Z.of_nat a) (Z.of_nat (length l)))) with a by lia.
    destruct (decide (a + s ≤ length l)%nat).
    + f_equal. lia.
    + rewrite (take_ge (drop a l) s) by (rewrite length_drop; lia).
      apply take_ge. rewrite length_drop. lia.
  - rewrite !drop_ge by lia. by rewrite !take_nil.
Qed.

Lemma slice_from_drop l (k : nat) :
  (0 < k ≤ length l)%nat →
  slice_from l (- Z.of_nat k) = drop (length l - k) l.
Proof.
  intros Hk. unfold slice_from, clip_index.
  destruct (Z.ltb_spec (- Z.of_nat k) 0) as [_|?]; [|lia].
  f_equal. lia.
Qed.

Lemma concat_windows s n l : concat (windows s n l) = take (n * s) l.
Proof.
  unfold windows. induction n as [|n IH].
  - by rewrite take_0.
  - rewrite seq_S, fmap_app, concat_app, IH.
    change (concat _) with (take s (drop ((0 + n) * s) l) ++ []).
    rewrite app_nil_r, Nat.add_0_l, take_take_drop. f_equal. lia.
Qed.

Lemma length_windows s n l : length (windows s n l) = n.
Proof. unfold windows. by rewrite length_fmap, length_seq. Qed.

Lemma lookup_windows s n l k c :
  windows s n l !! k = Some c → (k < n)%nat ∧ c = take s (drop (k * s) l).
Proof.
  unfold windows. rewrite list_lookup_fmap. intros H.
  destruct (seq 0 n !! k) as [j|] eqn:Hj; [|done].
  apply lookup_seq in Hj as [-> ?]. simpl in H. by inversion H.
Qed.

(** [_split] with a positive size is [windows]. *)
Lemma split_windows l (s : nat) :
  (0 < s)%nat →
  _split l (Z.of_nat s)
  = Ok (windows s (Z.to_nat ((Z.max (Z.of_nat (length l)) 1 - 1) / Z.of_nat s + 1)) l).
Proof.
  intros Hs. unfold _split, py_range, range_len.
  destruct (Z.eqb_spec (Z.of_nat s) 0) as [?|_]; [lia|].
  destruct (Z.ltb_spec 0 (Z.of_nat s)) as [_|?]; [|lia].
  destruct (Z.ltb_spec 0 (Z.max (Z.of_nat (length l)) 1)) as [_|?]; [|lia].
  simpl. f_equal. unfold windows. rewrite <- list_fmap_compose.
  rewrite Z.sub_0_r. apply list_fmap_ext. intros _ k _. simpl.
  replace (0 + Z.of_nat k * Z.of_nat s) with (Z.of_nat (k * s)) by lia.
  apply slice_window.
Qed.

Lemma split_positive_ok l (S : Z) : 0 < S → ∃ chunks, _split l S = Ok chunks.
Proof.
  intros HS. rewrite <- (Z2Nat.id S) by lia.
  rewrite split_windows by lia. eauto.
Qed.
End Slices.

(** C6.  Chunking.  For a text of length [L] and a size [S > 0], [_split]
    returns [ceil(max(L,1)/S)] chunks; every chunk but the last has length
    [S] and the last at most [S]; the chunks concatenated in order are the
    text; the empty text gives the single empty chunk, so there is always at
    least one chunk. *)
Theorem split_chunks {A} (text : list A) (S : Z) :
  0 < S →
  ∃ chunks : list (list A),
    _split text S = Ok chunks
    ∧ Z.of_nat (length chunks) = (Z.max (Z.of_nat (length text)) 1 + S - 1) / S
    ∧ concat chunks = text
    ∧ (∀ k c, chunks !! k = Some c → (k + 1 < length chunks)%nat →
              Z.of_nat (length c) = S)
    ∧ (∀ c, last chunks = Some c → Z.of_nat (length c) ≤ S)
    ∧ (text = [] → chunks = [[]])
    ∧ chunks ≠ [].
Proof.
  intros HS.
  set (L := Z.of_nat (length text)).
  set (M := Z.max L 1).
  set (q := (M - 1) / S).
  assert (Hq : q * S ≤ M - 1 < (q + 1) * S).
  { pose proof (Z.div_mod (M - 1) S ltac:(lia)) as Hdm.
    pose proof (Z.mod_pos_bound (M - 1) S HS). fold q in Hdm. nia. }
  assert (Hq0 : 0 ≤ q) by (apply Z.div_pos; lia).
  assert (Hn : (M + S - 1) / S = q + 1).
  { unfold q. replace (M + S - 1) with (M - 1 + 1 * S) by lia.
    apply Z.div_add. lia. }
  exists (windows (Z.to_nat S) (Z.to_nat (q + 1)) text).
  assert (Hlen : length (windows (Z.to_nat S) (Z.to_nat (q + 1)) text)
                 = Z.to_nat (q + 1)) by apply length_windows.
  split; [|split; [|split; [|split; [|split; [|split]]]]].
  - rewrite <- (Z2Nat.id S) at 1 by lia.
    rewrite split_windows by lia. rewrite Z2Nat.id by lia. reflexivity.
  - rewrite Hlen, Hn. lia.
  - rewrite concat_windows. apply take_ge. nia.
  - intros k c Hk Hlt. apply lookup_windows in Hk as [_ ->].
    rewrite Hlen in Hlt. rewrite length_take, length_drop. nia.
  - intros c Hc. rewrite last_lookup in Hc.
    apply lookup_windows in Hc as [_ ->]. rewrite length_take. lia.
  - intros ->. assert (q = 0) as -> by (apply Z.div_0_l; lia).
    unfold windows. simpl. by rewrite take_nil.
  - intros Hnil. rewrite Hnil in Hlen. simpl in Hlen. lia.
Qed.

Example split_hello :
  _split (py "hello, world") 5 = Ok [py "hello"; py ", wor"; py "ld"].
Proof. reflexivity. Qed.

Example split_empty : _split (A:=N) [] 4096 = Ok [[]].
Proof. reflexivity. Qed.

Lemma split_chunks_witness :
  0 < 5
  ∧ ∃ chunks : list (list N),
      _split (py "hello, world") 5 = Ok chunks
      ∧ Z.of_nat (length chunks)
        = (Z.max (Z.of_nat (length (py "hello, world"))) 1 + 5 - 1) / 5
      ∧ concat chunks = py "hello, world"
      ∧ (∀ k c, chunks !! k = Some c → (k + 1 < length chunks)%nat →
                Z.of_nat (length c) = 5)
      ∧ (∀ c, last chunks = Some c → Z.of_nat (length c) ≤ 5)
      ∧ (py "hello, world" = [] → chunks = [[]])
      ∧ chunks ≠ [].
Proof. split; [lia | apply (split_chunks (py "hello, world") 5); lia]. Defined.

(** ** The conversation store *)

Lemma trimmed_drop cfg (h : list item) :
  0 < MAX_HISTORY cfg →
  trimmed cfg h = drop (length h - Z.to_nat (2 * MAX_HISTORY cfg)) h.
Proof.
  intros Hm. unfold trimmed.
  destruct (Z.gtb_spec (Z.of_nat (length h)) (MAX_HISTORY cfg * 2)) as [Hgt|Hle].
  - replace (- (MAX_HISTORY cfg * 2))
      with (- Z.of_nat (Z.to_nat (2 * MAX_HISTORY cfg))) by lia.
    apply slice_from_drop. lia.
  - replace (length h - Z.to_nat (2 * MAX_HISTORY cfg))%nat with 0%nat by lia.
    done.
Qed.

Lemma history_at_insert uid h w :
  history_at (with_history (insert uid h) w) uid = h.
Proof. unfold history_at. simpl. by rewrite lookup_insert_eq. Qed.

Lemma history_at_trim cfg uid w :
  history_at (dispatch (_trim_history cfg uid) w) uid
  = trimmed cfg (history_at w uid).
Proof.
  unfold dispatch, _trim_history, bindM, history_of, history_set. simpl.
  apply history_at_insert.
Qed.

(** C2, as the code has it.  With [MAX_HISTORY >= 1], [_trim_history] leaves
    exactly [min(N, 2*MAX_HISTORY)] entries, and they are the last entries of
    the history in their order: the [N - min(N, 2*MAX_HISTORY)] oldest
    entries are cut from the front, whatever the parity of that number. *)
Theorem trim_keeps_last cfg uid w :
  0 < MAX_HISTORY cfg →
  let h := history_at w uid in
  let h' := history_at (dispatch (_trim_history cfg uid) w) uid in
  Z.of_nat (length h') = Z.min (Z.of_nat (length h)) (2 * MAX_HISTORY cfg)
  ∧ h' = drop (length h - length h') h
  ∧ h = take (length h - length h') h ++ h'.
Proof.
  intros Hm h h'. subst h'. rewrite history_at_trim. fold h.
  rewrite trimmed_drop by done.
  set (k := Z.to_nat (2 * MAX_HISTORY cfg)).
  rewrite length_drop.
  assert (length h - (length h - k) = Nat.min (length h) k)%nat as Hk by lia.
  split; [lia|]. split.
  - f_equal. lia.
  - replace (length h - (length h - (length h - k)))%nat
      with (length h - k)%nat by lia.
    by rewrite take_drop.
Qed.

(** With [MAX_HISTORY = 0] the slice is [hist[-0:]], the whole list: nothing
    is cut. *)
Example trim_zero_keeps_all :
  trimmed (sample_config (py "openai") 0)
    [user_turn (py "q1"); assistant_turn (py "a1")]
  = [user_turn (py "q1"); assistant_turn (py "a1")].
Proof. reflexivity. Qed.

Lemma trim_keeps_last_witness :
  0 < MAX_HISTORY (sample_config (py "openai") 1)
  ∧ let w := with_history
               (insert 7 [user_turn (py "q1"); assistant_turn (py "a1");
                          user_turn (py "q2")]) empty_world in
    let h := history_at w 7 in
    let h' := history_at
                (dispatch (_trim_history (sample_config (py "openai") 1) 7) w) 7 in
    Z.of_nat (length h')
    = Z.min (Z.of_nat (length h)) (2 * MAX_HISTORY (sample_config (py "openai") 1))
    ∧ h' = drop (length h - length h') h
    ∧ h = take (length h - length h') h ++ h'.
Proof.
  split; [done|].
  apply (trim_keeps_last (sample_config (py "openai") 1) 7). done.
Defined.

(** C2 as the specification words it fails: with room for one pair, a
    history of three turns loses one entry, an odd number, and then starts on
    the assistant turn whose user turn was cut. *)
Lemma trim_pairs_counterexample :
  let cfg := sample_config (py "openai") 1 in
  let h := [user_turn (py "q1"); assistant_turn (py "a1"); user_turn (py "q2")] in
  let w := with_history (insert 7 h) empty_world in
  let h' := history_at (dispatch (_trim_history cfg 7) w) 7 in
  h' = [assistant_turn (py "a1"); user_turn (py "q2")]
  ∧ ¬ (Z.of_nat (length h') = Z.min (Z.of_nat (length h)) (2 * MAX_HISTORY cfg)
       ∧ (∃ front, h = front ++ h')
       ∧ Nat.Even (length h - length h')
       ∧ role <$> head h' ≠ Some (py "assistant")).
Proof.
  assert (history_at
            (dispatch (_trim_history (sample_config (py "openai") 1) 7)
               (with_history
                  (insert 7 [user_turn (py "q1"); assistant_turn (py "a1");
                             user_turn (py "q2")]) empty_world)) 7
          = [assistant_turn (py "a1"); user_turn (py "q2")]) as E
    by (rewrite history_at_trim, history_at_insert; reflexivity).
  cbv zeta. rewrite E. split; [done|].
  intros (_ & _ & [k Hk] & _). simpl in Hk. lia.
Qed.

(** ** Running the store operations *)

#[local] Arguments py : simpl never.
#[local] Arguments trimmed : simpl never.

Lemma with_history_insert2 uid a b w :
  with_history (insert uid a) (with_history (insert uid b) w)
  = with_history (insert uid a) w.
Proof. unfold with_history. simpl. by rewrite insert_insert_eq. Qed.

Lemma run_history_of uid w :
  history_of uid w
  = (Ok (history_at w uid), with_history (insert uid (history_at w uid)) w).
Proof. reflexivity. Qed.

Lemma run_history_append uid it w :
  history_append uid it w
  = (Ok tt, with_history (insert uid (history_at w uid ++ [it])) w).
Proof.
  unfold history_append, bindM. rewrite run_history_of.
  unfold history_set. by rewrite with_history_insert2.
Qed.

Lemma run_trim_history cfg uid w :
  _trim_history cfg uid w
  = (Ok tt, with_history (insert uid (trimmed cfg (history_at w uid))) w).
Proof.
  unfold _trim_history, bindM. rewrite run_history_of.
  unfold history_set. by rewrite with_history_insert2.
Qed.

Lemma run_history_pop uid w :
  history_pop uid w
  = match last (history_at w uid) with
    | Some it =>
        (Ok it, with_history (insert uid (removelast (history_at w uid))) w)
    | None =>
        (Raise (IndexError (py "pop from empty list")),
         with_history (insert uid []) w)
    end.
Proof.
  unfold history_pop, bindM. rewrite run_history_of.
  destruct (last (history_at w uid)) as [it|] eqn:Hl.
  - unfold history_set, ret. by rewrite with_history_insert2.
  - apply last_None in Hl. rewrite Hl. reflexivity.
Qed.

Ltac world_eq :=
  unfold with_history, with_trace; cbn -[py];
  f_equal; rewrite ?insert_insert_eq, <- ?app_assoc; try reflexivity.

Lemma run_replies upd (chunks : list pystr) w :
  for_each chunks (reply_text upd) w
  = (Ok tt, with_trace (λ t, t ++ (ReplyText (effective_chat upd) <$> chunks)) w).
Proof.
  revert w. induction chunks as [|c chunks IH]; intros w.
  - destruct w. unfold with_trace. cbn. by rewrite app_nil_r.
  - cbn [for_each]. unfold bindM, reply_text at 1, emit. rewrite IH.
    f_equal. world_eq.
Qed.

(** A failed provider call: the world [_send_ai_reply] leaves. *)
Lemma run_send_failure cfg net sm upd uid c w e :
  let h1 := trimmed cfg (history_at w uid ++ [Item (py "user") c]) in
  ask_ai cfg net h1 = Raise e →
  dispatch (_send_ai_reply cfg net sm upd uid c) w
  = with_trace
      (λ t, t ++ [SendAction (effective_chat upd) (py "typing"); AskAI h1]
              ++ match h1 with
                 | [] => []
                 | _ => [ReplyText (effective_chat upd)
                           (AI_ERROR_PREFIX ++ str_exn e)]
                 end)
      (with_history (insert uid (removelast h1)) w).
Proof.
  intros h1 Hfail. unfold dispatch, _send_ai_reply.
  unfold bindM at 1. rewrite run_history_append.
  unfold bindM at 1.
  rewrite run_trim_history, history_at_insert, with_history_insert2.
  fold h1.
  unfold bindM at 1. unfold _reply_thinking, emit.
  unfold bindM at 1. rewrite run_history_of.
  change (history_at (with_trace ?f ?w) uid) with (history_at w uid).
  rewrite history_at_insert, Hfail.
  unfold bindM at 1.
  unfold bindM at 1. rewrite run_history_pop.
  change (history_at (with_trace ?f ?w) uid) with (history_at w uid).
  rewrite history_at_insert.
  destruct (last h1) as [it|] eqn:Hl.
  - destruct h1 as [|x h1']; [done|]. unfold reply_text, emit. world_eq.
  - apply last_None in Hl. rewrite Hl. world_eq.
Qed.

(** A provider call that answers: the world [_send_ai_reply] leaves. *)
Lemma run_send_success cfg net sm upd uid c w reply :
  let h1 := trimmed cfg (history_at w uid ++ [Item (py "user") c]) in
  ask_ai cfg net h1 = Ok reply →
  ∃ chunks,
    _split (sm reply) 4096 = Ok chunks
    ∧ dispatch (_send_ai_reply cfg net sm upd uid c) w
      = with_trace
          (λ t, t ++ [SendAction (effective_chat upd) (py "typing"); AskAI h1]
                  ++ (ReplyText (effective_chat upd) <$> chunks))
          (with_history
             (insert uid (trimmed cfg (h1 ++ [Item (py "assistant") (CStr reply)])))
             w).
Proof.
  intros h1 Hok.
  destruct (split_positive_ok (sm reply) 4096 ltac:(lia)) as (chunks & Hsplit).
  exists chunks. split; [done|].
  unfold dispatch, _send_ai_reply.
  unfold bindM at 1. rewrite run_history_append.
  unfold bindM at 1.
  rewrite run_trim_history, history_at_insert, with_history_insert2.
  fold h1.
  unfold bindM at 1. unfold _reply_thinking, emit.
  unfold bindM at 1. rewrite run_history_of.
  change (history_at (with_trace ?f ?w) uid) with (history_at w uid).
  rewrite history_at_insert, Hok.
  unfold bindM at 1.
  unfold bindM at 1. rewrite run_history_append.
  change (history_at (with_trace ?f ?w) uid) with (history_at w uid).
  rewrite history_at_insert.
  unfold bindM at 1. rewrite run_trim_history.
  change (history_at (with_history ?f (with_trace ?g ?w)) uid)
    with (history_at (with_history f w) uid).
  rewrite history_at_insert.
  unfold bindM at 1. unfold lift. rewrite Hsplit, run_replies.
  world_eq.
Qed.

(** ** Failure of the provider call *)

(** What is left of the history after a failed call: the trimmed history
    without its last entry. *)
Lemma failed_send_history cfg net sm upd uid c w e :
  let h1 := trimmed cfg (history_at w uid ++ [Item (py "user") c]) in
  ask_ai cfg net h1 = Raise e →
  history_at (dispatch (_send_ai_reply cfg net sm upd uid c) w) uid
  = removelast h1.
Proof.
  intros h1 Hfail. rewrite (run_send_failure _ _ _ _ _ _ _ e) by done.
  change (history_at (with_trace ?f ?w) uid) with (history_at w uid).
  apply history_at_insert.
Qed.

(** X13.  While the history has room for the new turn, the failure handler
    restores it. *)
Lemma failed_send_restores cfg net sm upd uid c w e :
  0 < MAX_HISTORY cfg →
  Z.of_nat (length (history_at w uid)) < 2 * MAX_HISTORY cfg →
  ask_ai cfg net (history_at w uid ++ [Item (py "user") c]) = Raise e →
  history_at (dispatch (_send_ai_reply cfg net sm upd uid c) w) uid
  = history_at w uid.
Proof.
  intros Hm Hroom Hfail.
  assert (trimmed cfg (history_at w uid ++ [Item (py "user") c])
          = history_at w uid ++ [Item (py "user") c]) as Htrim.
  { unfold trimmed. rewrite length_app. simpl.
    destruct (Z.gtb_spec (Z.of_nat (length (history_at w uid) + 1))
                (MAX_HISTORY cfg * 2)); [lia|done]. }
  rewrite (failed_send_history _ _ _ _ _ _ _ e) by (by rewrite Htrim).
  rewrite Htrim. apply removelast_last.
Qed.

(** X14.  Once the history is full, trimming cuts its oldest entry before the
    call, and the failure handler does not bring it back. *)
Lemma failed_send_full cfg net sm upd uid c w e :
  0 < MAX_HISTORY cfg →
  2 * MAX_HISTORY cfg ≤ Z.of_nat (length (history_at w uid)) →
  ask_ai cfg net (trimmed cfg (history_at w uid ++ [Item (py "user") c])) = Raise e →
  let h' := history_at (dispatch (_send_ai_reply cfg net sm upd uid c) w) uid in
  Z.of_nat (length h') = 2 * MAX_HISTORY cfg - 1
  ∧ h' = drop (length (history_at w uid) + 1 - Z.to_nat (2 * MAX_HISTORY cfg))
           (history_at w uid).
Proof.
  intros Hm Hfull Hfail h'. subst h'.
  rewrite (failed_send_history _ _ _ _ _ _ _ e) by done.
  rewrite trimmed_drop by done.
  set (h := history_at w uid) in *. set (k := Z.to_nat (2 * MAX_HISTORY cfg)).
  rewrite length_app. simpl.
  rewrite drop_app_le by lia. rewrite removelast_last.
  split; [rewrite length_drop; lia | done].
Qed.

(** C1 at a full history.  With room for one pair and the pair
    [q1], [a1] stored, a text message whose provider call fails leaves the
    single entry [a1]: the history is not back in its state before the
    call, and it is one entry shorter. *)
Theorem failed_call_drops_oldest_turn :
  let cfg := sample_config (py "openai") 1 in
  let h := [user_turn (py "q1"); assistant_turn (py "a1")] in
  let w := with_history (insert 7 h) empty_world in
  let w' := dispatch (handle_text cfg net_down id (text_update 7 (py "q2"))) w in
  history_at w 7 = h
  ∧ history_at w' 7 = [assistant_turn (py "a1")]
  ∧ length (history_at w' 7) ≠ length (history_at w 7).
Proof.
  cbv zeta.
  set (w := with_history _ empty_world).
  assert (history_at w 7 = [user_turn (py "q1"); assistant_turn (py "a1")]) as Hw
    by apply history_at_insert.
  assert (history_at
            (dispatch (handle_text (sample_config (py "openai") 1) net_down id
                         (text_update 7 (py "q2"))) w) 7
          = [assistant_turn (py "a1")]) as Hw'.
  { change (handle_text _ _ _ _)
      with (_send_ai_reply (sample_config (py "openai") 1) net_down id
              (text_update 7 (py "q2")) 7 (CStr (py "q2"))).
    rewrite (failed_send_history _ _ _ _ _ _ _
               (ProviderError (py "503 Service Unavailable")));
      rewrite Hw; reflexivity. }
  rewrite Hw, Hw'. split; [done|]. split; [done|]. simpl. lia.
Qed.

(** ** The adapters *)

Lemma mapM_ok_fmap {A B C} (f : A → result B) (g : C → A) (h : C → B) l :
  (∀ x, f (g x) = Ok (h x)) → mapM f (g <$> l) = Ok (h <$> l).
Proof.
  intros Hf. induction l as [|x l IH]; [done|].
  rewrite !fmap_cons. cbn [mapM]. rewrite Hf, IH. reflexivity.
Qed.

Lemma concat_singletons {A B} (f : A → B) (l : list A) :
  concat ((λ x, [f x]) <$> l) = f <$> l.
Proof. induction l as [|x l IH]; [done|]. cbn. f_equal. exact IH. Qed.

Lemma parts_loop_table body (shape : Table.Part → json) ps :
  (∀ p, body (Table.store_part p) = Ok [shape p]) →
  parts_loop body (Table.store_part <$> ps) = Ok (shape <$> ps).
Proof.
  intros Hb. unfold parts_loop.
  rewrite (mapM_ok_fmap body Table.store_part (λ p, [shape p])) by done.
  cbn [bind]. by rewrite concat_singletons.
Qed.

Lemma openai_part_table p :
  openai_part (Table.store_part p) = Ok [Table.openai_shape p].
Proof. by destruct p. Qed.

Lemma gemini_part_table p :
  gemini_part (Table.store_part p) = Ok [Table.gemini_shape p].
Proof. by destruct p. Qed.

Lemma anthropic_part_table p :
  anthropic_part (Table.store_part p) = Ok [Table.anthropic_shape p].
Proof. by destruct p. Qed.

(** C4.  The translation table.  For every history of the internal model,
    each serializer returns, turn by turn and part by part, the wire shape of
    the table and nothing else: roles [user]/[assistant] (Gemini: [model]),
    plain text as the content scalar (Gemini: one [{text}] part), and the
    [text], [image_url]/[inlineData]/[image] and ["[PDF Content]\n"]-prefixed
    text shapes for the parts. *)
Theorem adapter_translation_table (H : list Table.Turn) :
  _build_openai_messages (Table.store_turn <$> H) = Ok (Table.openai_turn <$> H)
  ∧ _build_gemini_contents (Table.store_turn <$> H) = Ok (Table.gemini_turn <$> H)
  ∧ _build_anthropic_messages (Table.store_turn <$> H)
    = Ok (Table.anthropic_turn <$> H).
Proof.
  split; [|split].
  - apply mapM_ok_fmap. intros [r [s|ps]].
    + by destruct r.
    + unfold openai_message, Table.store_turn, Table.openai_turn.
      cbn [item_content role Table.turn_content Table.turn_role].
      rewrite (parts_loop_table _ Table.openai_shape) by apply openai_part_table.
      by destruct r.
  - apply mapM_ok_fmap. intros [r [s|ps]].
    + by destruct r.
    + unfold gemini_content, Table.store_turn, Table.gemini_turn.
      cbn [item_content role Table.turn_content Table.turn_role].
      rewrite (parts_loop_table _ Table.gemini_shape) by apply gemini_part_table.
      by destruct r.
  - apply mapM_ok_fmap. intros [r [s|ps]].
    + by destruct r.
    + unfold anthropic_message, Table.store_turn, Table.anthropic_turn.
      cbn [item_content role Table.turn_content Table.turn_role].
      rewrite (parts_loop_table _ Table.anthropic_shape)
        by apply anthropic_part_table.
      by destruct r.
Qed.

(** The image part the handlers build is the stored form of the table's
    [Image] with the base64 text of the bytes. *)
Lemma encode_image_bytes_stored data mime :
  encode_image_bytes data mime = Table.store_part (Table.Image mime (b64encode data)).
Proof. reflexivity. Qed.

Example png_three_shapes :
  let p := [Table.store_part (Table.Image (py "image/png") (py "iVBORw0KGgo="))] in
  parts_loop openai_part p
  = Ok [JObj [(py "type", JStr (py "image_url"));
              (py "image_url",
               JObj [(py "url", JStr (py "data:image/png;base64,iVBORw0KGgo="))])]]
  ∧ parts_loop gemini_part p
    = Ok [JObj [(py "inlineData",
                 JObj [(py "mimeType", JStr (py "image/png"));
                       (py "data", JStr (py "iVBORw0KGgo="))])]]
  ∧ parts_loop anthropic_part p
    = Ok [JObj [(py "type", JStr (py "image"));
                (py "source",
                 JObj [(py "type", JStr (py "base64"));
                       (py "media_type", JStr (py "image/png"));
                       (py "data", JStr (py "iVBORw0KGgo="))])]].
Proof. repeat split. Qed.

(** C8.  OpenRouter reuses the OpenAI serialization.  For every history the
    two adapters build the same request body (both call
    [_build_openai_messages], with the same model); the requests differ in
    the base URL only, which OpenRouter sets and OpenAI leaves at its
    default. *)
Theorem openrouter_body_is_openai_body cfg (history : list item) :
  result_map request_body (openrouter_request cfg history)
  = result_map request_body (openai_request cfg history)
  ∧ result_map request_base_url (openrouter_request cfg history)
    = result_map (λ _, Some OPENROUTER_BASE_URL) (openai_request cfg history)
  ∧ result_map request_base_url (openai_request cfg history)
    = result_map (λ _, None) (openrouter_request cfg history).
Proof.
  unfold openrouter_request, openai_request.
  by destruct (_build_openai_messages history).
Qed.

(** ** Parts with a foreign type tag *)

Lemma known_type_false p ty :
  dict_get p (py "type") = Some ty → known_type p = false →
  ty ≠ py "text" ∧ ty ≠ py "image_b64" ∧ ty ≠ py "pdf_text".
Proof.
  unfold known_type. intros -> Hk. apply bool_decide_eq_false in Hk.
  unfold PART_TYPES in Hk. rewrite !not_elem_of_cons in Hk. tauto.
Qed.

Section PartsLoop.
Variable body : part → result (list json).
Hypothesis body_foreign :
  ∀ p, is_Some (dict_get p (py "type")) → known_type p = false → body p = Ok [].
Hypothesis body_known :
  ∀ p ws, known_type p = true → body p = Ok ws → length ws = 1%nat.

Lemma parts_loop_cons p ps :
  parts_loop body (p :: ps)
  = do x <- body p; do xs <- parts_loop body ps; Ok (x ++ xs).
Proof.
  unfold parts_loop. cbn [mapM]. destruct (body p); [|done].
  cbn [bind]. by destruct (mapM body ps).
Qed.

Lemma parts_loop_filter ps :
  Forall (λ p, is_Some (dict_get p (py "type"))) ps →
  parts_loop body ps = parts_loop body (filter (λ p, known_type p = true) ps).
Proof.
  induction 1 as [|p ps Hp _ IH]; [done|].
  rewrite filter_cons. destruct (decide (known_type p = true)) as [Hk|Hk].
  - by rewrite !parts_loop_cons, IH.
  - apply not_true_is_false in Hk.
    rewrite parts_loop_cons, (body_foreign p Hp Hk).
    cbn [bind]. rewrite IH.
    by destruct (parts_loop body (filter _ ps)).
Qed.

Lemma parts_loop_length ps ws :
  Forall (λ p, is_Some (dict_get p (py "type"))) ps →
  parts_loop body ps = Ok ws →
  length ws = length (filter (λ p, known_type p = true) ps).
Proof.
  intros Ht. revert ws. induction Ht as [|p ps Hp _ IH]; intros ws.
  - unfold parts_loop. cbn. by intros [= <-].
  - rewrite parts_loop_cons, filter_cons.
    destruct (body p) as [x|] eqn:Hb; [|done]. cbn [bind].
    destruct (parts_loop body ps) as [xs|]; [|done]. cbn [bind].
    intros [= <-]. rewrite length_app, (IH xs) by done.
    destruct (decide (known_type p = true)) as [Hk|Hk].
    + by rewrite (body_known p x).
    + apply not_true_is_false in Hk. rewrite (body_foreign p Hp Hk) in Hb.
      by injection Hb as <-.
Qed.

Lemma parts_loop_known_pointwise ps ws :
  Forall (λ p, known_type p = true) ps →
  parts_loop body ps = Ok ws →
  Forall2 (λ p w, body p = Ok [w]) ps ws.
Proof.
  intros Hk. revert ws. induction Hk as [|p ps Hp _ IH]; intros ws.
  - unfold parts_loop. cbn. intros [= <-]. constructor.
  - rewrite parts_loop_cons.
    destruct (body p) as [x|] eqn:Hb; [|done]. cbn [bind].
    destruct (parts_loop body ps) as [xs|]; [|done]. cbn [bind].
    intros [= <-]. pose proof (body_known p x Hp Hb) as Hlen.
    destruct x as [|w [|? ?]]; try done. constructor; [done|]. by apply IH.
Qed.
End PartsLoop.

Ltac foreign_part :=
  let ty := fresh "ty" in
  let Ht := fresh "Ht" in
  let Hk := fresh "Hk" in
  intros p [ty Ht] Hk;
  destruct (known_type_false p ty Ht Hk) as (? & ? & ?);
  unfold part_get; rewrite Ht; cbn [bind];
  repeat (destruct (decide _); [done|]); reflexivity.

Ltac known_part :=
  let Hk := fresh "Hk" in
  intros p ws Hk; unfold known_type in Hk; unfold part_get;
  destruct (dict_get p (py "type")) as [ty|]; [|done];
  apply bool_decide_eq_true in Hk;
  unfold PART_TYPES in Hk; rewrite !elem_of_cons, elem_of_nil in Hk;
  cbn [bind];
  repeat (match goal with
          | |- context [dict_get p ?k] => destruct (dict_get p k)
          | |- context [decide (?a = ?b)] => destruct (decide (a = b))
          end; cbn [bind]);
  try discriminate; try (intros [= <-]; reflexivity); tauto.

Lemma openai_part_foreign p :
  is_Some (dict_get p (py "type")) → known_type p = false → openai_part p = Ok [].
Proof. revert p. unfold openai_part. foreign_part. Qed.

Lemma gemini_part_foreign p :
  is_Some (dict_get p (py "type")) → known_type p = false → gemini_part p = Ok [].
Proof. revert p. unfold gemini_part. foreign_part. Qed.

Lemma anthropic_part_foreign p :
  is_Some (dict_get p (py "type")) → known_type p = false → anthropic_part p = Ok [].
Proof. revert p. unfold anthropic_part. foreign_part. Qed.

Lemma openai_part_known p ws :
  known_type p = true → openai_part p = Ok ws → length ws = 1%nat.
Proof. revert p ws. unfold openai_part. known_part. Qed.

Lemma gemini_part_known p ws :
  known_type p = true → gemini_part p = Ok ws → length ws = 1%nat.
Proof. revert p ws. unfold gemini_part. known_part. Qed.

Lemma anthropic_part_known p ws :
  known_type p = true → anthropic_part p = Ok ws → length ws = 1%nat.
Proof. revert p ws. unfold anthropic_part. known_part. Qed.

Lemma constructed_known p : constructed p → known_type p = true.
Proof. by intros [[t ->]|[(d & m & ->)|[t ->]]]. Qed.

Lemma constructed_shape p :
  constructed p → ∃ q, p = Table.store_part q.
Proof.
  intros [[t ->]|[(d & m & ->)|[t ->]]].
  - by exists (Table.Text t).
  - by exists (Table.Image m (b64encode d)).
  - by exists (Table.PdfText t).
Qed.

Lemma parts_loop_constructed body (shape : Table.Part → json) ps :
  (∀ q, body (Table.store_part q) = Ok [shape q]) →
  Forall constructed ps →
  ∃ ws, parts_loop body ps = Ok ws ∧ Forall2 (λ p w, body p = Ok [w]) ps ws.
Proof.
  intros Hb. induction 1 as [|p ps Hp _ (ws & Hws & Hall)].
  - by exists [].
  - destruct (constructed_shape p Hp) as [q ->].
    exists (shape q :: ws). split.
    + unfold parts_loop in *. cbn [mapM]. rewrite Hb. cbn [bind].
      destruct (mapM body ps); [|done]. cbn [bind] in *. by injection Hws as <-.
    + by constructor.
Qed.

Lemma filter_length_all {A} (P : A → Prop) `{∀ x, Decision (P x)} (l : list A) :
  length (filter P l) = length l ↔ Forall P l.
Proof.
  induction l as [|x l IH]; [by split; [constructor|]|].
  rewrite filter_cons. pose proof (length_filter P l).
  destruct (decide (P x)); cbn [length].
  - rewrite Forall_cons. split; [intros [=]|intros [_ ?]]; [|f_equal]; tauto.
  - rewrite Forall_cons. split; [lia|tauto].
Qed.

(** C10, as the code has it.  Every serializer skips a part whose type tag
    is none of [text], [image_b64], [pdf_text]: the part raises nothing and
    adds nothing, and the loop gives what it gives without that part.  So
    parts [ps] that came out of the three constructors go through one wire
    part for each part, in the same order.  Among parts [qs] that carry a
    type tag, built by a constructor or not, a serialization that succeeds
    keeps the number of parts exactly when every tag is one of the three,
    and then it keeps their order too. *)
Theorem foreign_parts_are_skipped (ps qs : list part) :
  Forall constructed ps →
  Forall (λ p, is_Some (dict_get p (py "type"))) qs →
  Forall
    (λ body : part → result (list json),
       (∃ ws, parts_loop body ps = Ok ws
              ∧ Forall2 (λ p w, body p = Ok [w]) ps ws)
       ∧ (∀ p, p ∈ qs → known_type p = false → body p = Ok [])
       ∧ parts_loop body qs
         = parts_loop body (filter (λ p, known_type p = true) qs)
       ∧ (∀ ws, parts_loop body qs = Ok ws →
                (length ws = length qs ↔ Forall (λ p, known_type p = true) qs)
                ∧ (Forall (λ p, known_type p = true) qs →
                   Forall2 (λ p w, body p = Ok [w]) qs ws)))
    [openai_part; gemini_part; anthropic_part].
Proof.
  intros Hc Ht. rewrite Forall_forall in Ht.
  repeat apply Forall_cons_2; [| | |apply Forall_nil_2];
    (split; [|split; [|split]]).
  - apply (parts_loop_constructed _ Table.openai_shape); [apply openai_part_table|done].
  - intros p Hp. apply openai_part_foreign. auto.
  - apply parts_loop_filter; [apply openai_part_foreign|by apply Forall_forall].
  - intros ws Hws. split.
    + rewrite <- filter_length_all.
      by rewrite (parts_loop_length openai_part openai_part_foreign
                    openai_part_known qs ws) by (by apply Forall_forall || done).
    + intros Hk. by apply (parts_loop_known_pointwise _ openai_part_known).
  - apply (parts_loop_constructed _ Table.gemini_shape); [apply gemini_part_table|done].
  - intros p Hp. apply gemini_part_foreign. auto.
  - apply parts_loop_filter; [apply gemini_part_foreign|by apply Forall_forall].
  - intros ws Hws. split.
    + rewrite <- filter_length_all.
      by rewrite (parts_loop_length gemini_part gemini_part_foreign
                    gemini_part_known qs ws) by (by apply Forall_forall || done).
    + intros Hk. by apply (parts_loop_known_pointwise _ gemini_part_known).
  - apply (parts_loop_constructed _ Table.anthropic_shape); [apply anthropic_part_table|done].
  - intros p Hp. apply anthropic_part_foreign. auto.
  - apply parts_loop_filter; [apply anthropic_part_foreign|by apply Forall_forall].
  - intros ws Hws. split.
    + rewrite <- filter_length_all.
      by rewrite (parts_loop_length anthropic_part anthropic_part_foreign
                    anthropic_part_known qs ws) by (by apply Forall_forall || done).
    + intros Hk. by apply (parts_loop_known_pointwise _ anthropic_part_known).
Qed.

Example audio_part_is_skipped :
  parts_loop openai_part
    [make_text_part (py "hi"); [(py "type", py "audio"); (py "url", py "x")];
     make_pdf_part (py "doc")]
  = Ok [JObj [(py "type", JStr (py "text")); (py "text", JStr (py "hi"))];
        JObj [(py "type", JStr (py "text"));
              (py "text", JStr (py "[PDF Content]" ++ [10%N] ++ py "doc"))]].
Proof. reflexivity. Qed.

Lemma foreign_parts_are_skipped_witness :
  let ps := [make_text_part (py "hi");
             encode_image_bytes [Byte.x01] (py "image/png");
             make_pdf_part (py "doc")] in
  let qs := [make_text_part (py "hi");
             [(py "type", py "audio"); (py "url", py "x")];
             make_pdf_part (py "doc");
             [(py "type", py "text"); (py "text", py "x"); (py "note", py "y")]] in
  Forall constructed ps
  ∧ Forall (λ p, is_Some (dict_get p (py "type"))) qs
  ∧ Forall
      (λ body : part → result (list json),
         (∃ ws, parts_loop body ps = Ok ws
                ∧ Forall2 (λ p w, body p = Ok [w]) ps ws)
         ∧ (∀ p, p ∈ qs → known_type p = false → body p = Ok [])
         ∧ parts_loop body qs
           = parts_loop body (filter (λ p, known_type p = true) qs)
         ∧ (∀ ws, parts_loop body qs = Ok ws →
                  (length ws = length qs ↔ Forall (λ p, known_type p = true) qs)
                  ∧ (Forall (λ p, known_type p = true) qs →
                     Forall2 (λ p w, body p = Ok [w]) qs ws)))
      [openai_part; gemini_part; anthropic_part].
Proof.
  assert (Forall constructed
            [make_text_part (py "hi");
             encode_image_bytes [Byte.x01] (py "image/png");
             make_pdf_part (py "doc")]) as Hc.
  { constructor; [left; eauto|].
    constructor; [right; left; eauto|].
    constructor; [right; right; eauto|constructor]. }
  assert (Forall (λ p : part, is_Some (dict_get p (py "type")))
            [make_text_part (py "hi");
             [(py "type", py "audio"); (py "url", py "x")];
             make_pdf_part (py "doc");
             [(py "type", py "text"); (py "text", py "x"); (py "note", py "y")]])
    as Ht by (repeat constructor; eexists; reflexivity).
  split; [exact Hc|]. split; [exact Ht|].
  exact (foreign_parts_are_skipped _ _ Hc Ht).
Defined.

(** C10 as the specification words it fails in one direction: a text part
    that carries one more key did not come out of a constructor, and every
    serializer still turns it into one wire part; what decides is the type
    tag, not where the part was built. *)
Lemma kept_part_not_constructed_counterexample :
  let p := [(py "type", py "text"); (py "text", py "x"); (py "note", py "y")] in
  let w := JObj [(py "type", JStr (py "text")); (py "text", JStr (py "x"))] in
  parts_loop openai_part [p] = Ok [w]
  ∧ parts_loop gemini_part [p] = Ok [JObj [(py "text", JStr (py "x"))]]
  ∧ parts_loop anthropic_part [p] = Ok [w]
  ∧ ¬ Forall constructed [p].
Proof.
  cbv zeta. split; [reflexivity|]. split; [reflexivity|]. split; [reflexivity|].
  intros H. apply Forall_cons in H as [[[t H]|[(d & m & H)|[t H]]] _];
    discriminate H.
Qed.

(** ** The provider selector *)





(** ** [strip] *)

Lemma length_lstrip s : (length (lstrip s) ≤ length s)%nat.
Proof.
  induction s as [|c s IH]; [done|]. cbn [lstrip].
  destruct (isspace c); cbn [length]; lia.
Qed.

Lemma lstrip_fixed s :
  lstrip s = s ↔ ∀ c, head s = Some c → isspace c = false.
Proof.
  destruct s as [|c s]; [done|]. cbn [lstrip head].
  destruct (isspace c) eqn:Hc.
  - split.
    + intros Heq. pose proof (length_lstrip s) as Hl.
      rewrite Heq in Hl. cbn [length] in Hl. lia.
    + intros Hh. specialize (Hh c eq_refl). congruence.
  - split; [|done]. by intros _ c' [= <-].
Qed.

Lemma lstrip_spaces s : Forall (λ c, isspace c = true) s → lstrip s = [].
Proof. induction 1 as [|c s Hc _ IH]; [done|]. cbn [lstrip]. by rewrite Hc. Qed.

Lemma strip_spaces s : Forall (λ c, isspace c = true) s → strip s = [].
Proof. intros Hs. unfold strip, rstrip. by rewrite (lstrip_spaces s). Qed.

Lemma head_lstrip s c : head (lstrip s) = Some c → isspace c = false.
Proof.
  induction s as [|c' s IH]; [done|]. cbn [lstrip].
  destruct (isspace c') eqn:Hc; [done|]. by intros [= <-].
Qed.

Lemma lstrip_snoc s c :
  isspace c = false → lstrip (s ++ [c]) = lstrip s ++ [c].
Proof.
  intros Hc. induction s as [|c' s IH].
  - cbn. by rewrite Hc.
  - cbn [app lstrip]. by destruct (isspace c').
Qed.

Lemma strip_fixed s : strip s = s ↔ no_outer_space s.
Proof.
  unfold strip, rstrip, no_outer_space. split.
  - intros Heq.
    assert (lstrip s = s) as Hl.
    { apply lstrip_fixed. destruct s as [|c s]; [done|].
      intros c' [= <-]. destruct (isspace c) eqn:Hc; [|done].
      apply (f_equal length) in Heq.
      rewrite length_reverse in Heq.
      pose proof (length_lstrip (reverse (lstrip (c :: s)))) as H1.
      rewrite length_reverse in H1.
      pose proof (length_lstrip s) as H2.
      cbn [lstrip] in Heq, H1. rewrite Hc in Heq, H1.
      cbn [length] in Heq. lia. }
    split; [by apply lstrip_fixed|].
    rewrite Hl in Heq. apply (f_equal reverse) in Heq.
    rewrite reverse_involutive in Heq.
    pose proof (proj1 (lstrip_fixed (reverse s)) Heq) as Hr.
    by rewrite head_reverse in Hr.
  - intros [Hh Hl]. rewrite (proj2 (lstrip_fixed s) Hh).
    rewrite (proj2 (lstrip_fixed (reverse s))); [apply reverse_involutive|].
    by rewrite head_reverse.
Qed.

Lemma strip_no_outer_space s : no_outer_space (strip s).
Proof.
  unfold strip, rstrip. split.
  - destruct (lstrip s) as [|c0 u] eqn:Hu; [done|].
    assert (isspace c0 = false) as Hc0 by (apply (head_lstrip s); by rewrite Hu).
    rewrite reverse_cons, lstrip_snoc, reverse_snoc by done.
    by intros c [= <-].
  - intros c. rewrite last_reverse. apply head_lstrip.
Qed.

(** What the program stores is already stripped, and stays as it is. *)
Lemma strip_idempotent s : strip (strip s) = strip s.
Proof. apply strip_fixed, strip_no_outer_space. Qed.

(** ** Text messages *)

(** C9.  A text message that is empty, or white space only, changes nothing:
    [handle_text] returns before it touches the history, calls the provider
    or replies, and the world it leaves is the world it found. *)
Theorem blank_text_is_ignored cfg net sm upd w :
  Forall (λ c, isspace c = true) (message_text upd) →
  handle_text cfg net sm upd w = (Ok tt, w).
Proof.
  intros Hs. unfold handle_text. by rewrite strip_spaces.
Qed.

Lemma blank_text_is_ignored_witness :
  let upd := text_update 7 (py "  " ++ [9%N; 10%N; 160%N]) in
  let w := with_history (insert 7 [user_turn (py "q1"); assistant_turn (py "a1")])
             empty_world in
  Forall (λ c, isspace c = true) (message_text upd)
  ∧ handle_text (sample_config (py "openai") 20) (net_answer (py "hi")) id upd w
    = (Ok tt, w).
Proof.
  assert (Forall (λ c, isspace c = true)
            (message_text (text_update 7 (py "  " ++ [9%N; 10%N; 160%N])))) as Hs
    by (repeat constructor).
  split; [exact Hs|].
  exact (blank_text_is_ignored _ _ _ _ _ Hs).
Defined.

(** ** Through the adapter and back *)

Lemma mapM_Forall_ok {A B} (f : A → result B) l :
  Forall (λ x, ∃ y, f x = Ok y) l → ∃ ys, mapM f l = Ok ys.
Proof.
  induction 1 as [|x l [y Hy] _ [ys Hys]]; [by exists []|].
  exists (y :: ys). cbn [mapM]. by rewrite Hy, Hys.
Qed.

Lemma plain_openai_messages h :
  Forall plain_text h → ∃ ms, _build_openai_messages h = Ok ms.
Proof.
  intros Hp. apply mapM_Forall_ok. eapply Forall_impl; [exact Hp|].
  intros it [s Hs]. unfold openai_message. rewrite Hs. eauto.
Qed.

Lemma plain_gemini_contents h :
  Forall plain_text h → ∃ cs, _build_gemini_contents h = Ok cs.
Proof.
  intros Hp. apply mapM_Forall_ok. eapply Forall_impl; [exact Hp|].
  intros it [s Hs]. unfold gemini_content. rewrite Hs. eauto.
Qed.

Lemma plain_anthropic_messages h :
  Forall plain_text h → ∃ ms, _build_anthropic_messages h = Ok ms.
Proof.
  intros Hp. apply mapM_Forall_ok. eapply Forall_impl; [exact Hp|].
  intros it [s Hs]. unfold anthropic_message. rewrite Hs. eauto.
Qed.

Lemma openai_reply_response t : openai_reply (openai_response t) = Ok (strip t).
Proof. reflexivity. Qed.

Lemma gemini_reply_response t : gemini_reply (gemini_response t) = Ok (strip t).
Proof. reflexivity. Qed.

Lemma anthropic_reply_response t :
  anthropic_reply (anthropic_response t) = Ok (strip t).
Proof. reflexivity. Qed.

(** C5, as the code has it.  For a history of plain-text turns every adapter
    serializes without error, and from a response that holds a text [t] in
    its reply field it returns [t.strip()]: [t] without the white space
    around it.  The text comes back unchanged exactly when it neither starts
    nor ends with white space. *)
Theorem plain_text_round_trip cfg (h : list item) (t : pystr) :
  Forall plain_text h →
  _ask_openai cfg (net_answer t) h = Ok (strip t)
  ∧ _ask_openrouter cfg (net_answer t) h = Ok (strip t)
  ∧ _ask_gemini cfg (net_answer t) h = Ok (strip t)
  ∧ _ask_anthropic cfg (net_answer t) h = Ok (strip t)
  ∧ (strip t = t ↔ no_outer_space t).
Proof.
  intros Hp.
  destruct (plain_openai_messages h Hp) as [ms Hms].
  destruct (plain_gemini_contents h Hp) as [cs Hcs].
  destruct (plain_anthropic_messages h Hp) as [as_ Has].
  split; [|split; [|split; [|split]]].
  - unfold _ask_openai, openai_request. rewrite Hms. reflexivity.
  - unfold _ask_openrouter, openrouter_request. rewrite Hms. reflexivity.
  - unfold _ask_gemini, gemini_request. rewrite Hcs. reflexivity.
  - unfold _ask_anthropic, anthropic_request. rewrite Has. reflexivity.
  - apply strip_fixed.
Qed.

Lemma plain_text_round_trip_witness :
  let cfg := sample_config (py "gemini") 20 in
  let h := [user_turn (py "hello"); assistant_turn (py "hi there");
            user_turn (py "bye")] in
  let t := py "hi there" in
  Forall plain_text h
  ∧ _ask_openai cfg (net_answer t) h = Ok (strip t)
  ∧ _ask_openrouter cfg (net_answer t) h = Ok (strip t)
  ∧ _ask_gemini cfg (net_answer t) h = Ok (strip t)
  ∧ _ask_anthropic cfg (net_answer t) h = Ok (strip t)
  ∧ (strip t = t ↔ no_outer_space t).
Proof.
  assert (Forall plain_text
            [user_turn (py "hello"); assistant_turn (py "hi there");
             user_turn (py "bye")]) as Hp
    by (repeat constructor; eexists; reflexivity).
  split; [exact Hp|].
  exact (plain_text_round_trip (sample_config (py "gemini") 20) _
           (py "hi there") Hp).
Defined.

(** C5 as the specification words it fails: a text with a leading blank
    comes back without it. *)
Lemma round_trip_counterexample :
  let cfg := sample_config (py "openai") 20 in
  let t := py " hi" in
  let h := [user_turn t] in
  Forall plain_text h
  ∧ _ask_openai cfg (net_answer t) h = Ok (py "hi")
  ∧ _ask_openai cfg (net_answer t) h ≠ Ok t.
Proof.
  cbv zeta. split; [|split].
  - repeat constructor. eexists. reflexivity.
  - reflexivity.
  - discriminate.
Qed.

(** ** Media groups *)

Section Album.
Variable cfg : Config.
Variable net : transport.
Variable sm : pystr → pystr.
Variable g : pystr.
Hypothesis g_truthy : g ≠ [].

Lemma truthy_g : truthy g = true.
Proof. by destruct g. Qed.

Ltac photo_steps :=
  unfold bindM, group_update, group_field, call_later, cancel, ret,
    with_groups, with_timers, with_next_handle;
  repeat
    (cbn [g_parts g_caption g_update g_uid g_task snd fst
          user_history _media_groups timers next_handle now trace];
     rewrite ?alter_insert_eq, ?lookup_insert_eq, ?insert_insert_eq).

Lemma photo_opens u w :
  media_group_id u = Some g →
  _media_groups w !! g = None →
  timers w = [] →
  dispatch (handle_photo cfg net sm u) w
  = collecting w g u [image_of u]
      (if truthy (caption_of u) then caption_of u else [])
      (next_handle w) (now w + _MEDIA_GROUP_TIMEOUT) (now w).
Proof.
  intros Hg Hnone Hts. unfold dispatch, handle_photo.
  rewrite Hg. change (default [] (Some g)) with g. rewrite truthy_g.
  fold (caption_of u). fold (image_of u).
  unfold bindM at 1. destruct (decide (is_Some (_media_groups w !! g))) as [Hs|_].
  { rewrite Hnone in Hs. by destruct Hs. }
  destruct (truthy (caption_of u)); photo_steps; by rewrite Hts.
Qed.

Lemma photo_joins u w0 first parts cap h due t :
  media_group_id u = Some g →
  dispatch (handle_photo cfg net sm u) (collecting w0 g first parts cap h due t)
  = collecting w0 g first (parts ++ [image_of u])
      (if truthy (caption_of u) then caption_of u else cap)
      (S h) (t + _MEDIA_GROUP_TIMEOUT) t.
Proof.
  intros Hg. unfold dispatch, handle_photo.
  rewrite Hg. change (default [] (Some g)) with g. rewrite truthy_g.
  fold (caption_of u). fold (image_of u).
  unfold bindM at 1.
  destruct (decide (is_Some (_media_groups (collecting w0 g first parts cap h due t) !! g)))
    as [_|Hn].
  2:{ exfalso. apply Hn. unfold collecting. cbn [_media_groups].
      rewrite lookup_insert_eq. eauto. }
  unfold collecting.
  destruct (truthy (caption_of u)); photo_steps;
    rewrite filter_cons, decide_False, filter_nil by (cbn; tauto); reflexivity.
Qed.

Lemma elapse_idle d w :
  timers w = [] → elapse cfg net sm d w = with_now (now w + d) w.
Proof. intros Hts. unfold elapse. by rewrite Hts. Qed.

Lemma elapse_short d w0 first parts cap h due t :
  (t + d < due)%N →
  elapse cfg net sm d (collecting w0 g first parts cap h due t)
  = collecting w0 g first parts cap h due (t + d).
Proof.
  intros Hlt. unfold elapse, collecting. cbn [timers now length run_timers first_due t_due].
  destruct (N.leb_spec due (t + d)) as [?|_]; [lia|]. reflexivity.
Qed.

Lemma elapse_flush d w0 first parts cap h due t :
  _media_groups w0 !! g = None →
  (due ≤ t + d)%N →
  elapse cfg net sm d (collecting w0 g first parts cap h due t)
  = with_now (t + d)
      (dispatch
         (_send_ai_reply cfg net sm first (effective_user_id first)
            (CParts (parts ++ [make_text_part (or_else cap PROMPT_MANY)])))
         (with_now (N.max t due)
            (with_next_handle (S h) (with_timers (λ _, []) w0)))).
Proof.
  intros Hnone Hle. unfold elapse, collecting.
  cbn [timers now length run_timers first_due t_due].
  destruct (N.leb_spec due (t + d)) as [_|?]; [|lia].
  unfold with_timers at 1. cbn [timers t_id].
  rewrite filter_cons, decide_False, filter_nil by (cbn; tauto).
  cbn [t_mgid user_history _media_groups next_handle now trace].
  unfold _flush_media_group, dispatch. unfold bindM at 1.
  cbn [_media_groups with_now user_history timers next_handle now trace].
  rewrite lookup_insert_eq.
  cbn [g_caption g_update g_uid g_parts].
  unfold with_groups.
  cbn [_media_groups with_now user_history timers next_handle now trace].
  rewrite delete_insert_eq, delete_id by done.
  reflexivity.
Qed.

Lemma arrivals_collecting w0 first rest :
  ∀ parts cap h t,
    Forall (λ ev : N * Update,
              (ev.1 < _MEDIA_GROUP_TIMEOUT)%N ∧ media_group_id ev.2 = Some g) rest →
    ∃ h' t',
      arrivals cfg net sm rest
        (collecting w0 g first parts cap h (t + _MEDIA_GROUP_TIMEOUT) t)
      = collecting w0 g first (parts ++ (image_of <$> (snd <$> rest)))
          (stored_caption cap (snd <$> rest)) h' (t' + _MEDIA_GROUP_TIMEOUT) t'.
Proof.
  induction rest as [|[gap u] rest IH]; intros parts cap h t Hall.
  - exists h, t. cbn. by rewrite app_nil_r.
  - apply Forall_cons in Hall as [[Hgap Hu] Hall]. cbn [fst snd] in Hgap, Hu.
    cbn [arrivals]. rewrite elapse_short by lia. rewrite photo_joins by done.
    destruct (IH (parts ++ [image_of u])
                (if truthy (caption_of u) then caption_of u else cap)
                (S h) (t + gap)%N Hall) as (h' & t' & ->).
    exists h', t'. rewrite !fmap_cons. cbn [snd stored_caption].
    by rewrite <- app_assoc.
Qed.
End Album.

(** Where [_send_ai_reply] leaves a world depends on the history of [uid]
    alone: one typing action, one call of [ask_ai] on the trimmed history
    with the new turn, then replies. *)
Lemma send_shape cfg net sm upd uid c (hst : list item) :
  ∃ (hist' : list item) (replies : list pystr),
    ∀ w, history_at w uid = hst →
      dispatch (_send_ai_reply cfg net sm upd uid c) w
      = with_trace
          (λ t, t ++ [SendAction (effective_chat upd) (py "typing");
                      AskAI (trimmed cfg (hst ++ [Item (py "user") c]))]
                  ++ (ReplyText (effective_chat upd) <$> replies))
          (with_history (insert uid hist') w).
Proof.
  destruct (ask_ai cfg net (trimmed cfg (hst ++ [Item (py "user") c])))
    as [reply|e] eqn:Hask.
  - destruct (split_positive_ok (sm reply) 4096 ltac:(lia)) as [chunks Hc].
    exists (trimmed cfg (trimmed cfg (hst ++ [Item (py "user") c])
                         ++ [Item (py "assistant") (CStr reply)])), chunks.
    intros w <-.
    destruct (run_send_success cfg net sm upd uid c w reply Hask)
      as (chunks' & Hc' & ->).
    rewrite Hc in Hc'. by injection Hc' as <-.
  - exists (removelast (trimmed cfg (hst ++ [Item (py "user") c]))),
           (match trimmed cfg (hst ++ [Item (py "user") c]) with
                | [] => []
                | _ => [AI_ERROR_PREFIX ++ str_exn e]
                end).
    intros w <-. rewrite (run_send_failure cfg net sm upd uid c w e Hask).
    unfold with_trace. f_equal.
    by destruct (trimmed cfg _).
Qed.

(** C7.  An album is one turn.  Photos that share the batch identifier [g]
    arrive one after the other, each less than the quiet period after the
    one before, and then the quiet period passes.  Exactly one turn is sent:
    one call of [ask_ai], on the history with one new user turn that holds
    the image parts in arrival order and then one text part.  The text is
    the last non-empty caption of the album, or the default prompt when no
    photo had one.  The history and the trace end as one run of the
    turn-send procedure leaves them, the group is gone and no timer is
    pending. *)
Theorem album_is_one_turn cfg net sm (g : pystr) (w0 : World)
    (d0 : N) (u1 : Update) (rest : list (N * Update)) (quiet : N) :
  g ≠ [] →
  _media_groups w0 !! g = None →
  timers w0 = [] →
  media_group_id u1 = Some g →
  Forall (λ ev : N * Update,
            (ev.1 < _MEDIA_GROUP_TIMEOUT)%N ∧ media_group_id ev.2 = Some g) rest →
  (_MEDIA_GROUP_TIMEOUT ≤ quiet)%N →
  let album := u1 :: (snd <$> rest) in
  let uid := effective_user_id u1 in
  let turn :=
    CParts ((image_of <$> album)
            ++ [make_text_part (or_else (stored_caption [] album) PROMPT_MANY)]) in
  let w1 := elapse cfg net sm quiet (arrivals cfg net sm ((d0, u1) :: rest) w0) in
  let sent := dispatch (_send_ai_reply cfg net sm u1 uid turn) w0 in
  (∃ replies : list pystr,
     trace w1
     = trace w0
       ++ [SendAction (effective_chat u1) (py "typing");
           AskAI (trimmed cfg (history_at w0 uid ++ [Item (py "user") turn]))]
       ++ (ReplyText (effective_chat u1) <$> replies))
  ∧ trace w1 = trace sent
  ∧ user_history w1 = user_history sent
  ∧ _media_groups w1 = _media_groups w0
  ∧ timers w1 = [].
Proof.
  intros Hg Hnone Hts Hu1 Hrest Hquiet album uid turn w1 sent.
  assert (∃ t h,
            w1 = with_now t
                   (dispatch (_send_ai_reply cfg net sm u1 uid turn)
                      (with_now (t - quiet + _MEDIA_GROUP_TIMEOUT)
                         (with_next_handle h (with_timers (λ _, []) w0)))))
    as (t & h & Hw1).
  { subst w1. cbn [arrivals].
    rewrite (elapse_idle cfg net sm d0 w0 Hts).
    rewrite (photo_opens cfg net sm g Hg u1 (with_now (now w0 + d0) w0) Hu1 Hnone Hts).
    cbn [now with_now next_handle].
    destruct (arrivals_collecting cfg net sm g Hg (with_now (now w0 + d0) w0)
                u1 rest [image_of u1]
                (if truthy (caption_of u1) then caption_of u1 else [])
                (next_handle w0) (now w0 + d0)%N Hrest) as (h' & t' & ->).
    rewrite elapse_flush by (done || lia).
    exists (t' + quiet)%N, (S h').
    replace (N.max t' (t' + _MEDIA_GROUP_TIMEOUT))
      with (t' + quiet - quiet + _MEDIA_GROUP_TIMEOUT)%N by lia.
    reflexivity. }
  destruct (send_shape cfg net sm u1 uid turn (history_at w0 uid))
    as (hist' & replies & Hsend).
  assert (sent = _) as Hsent by (apply Hsend; reflexivity).
  rewrite Hw1, Hsent, Hsend by reflexivity.
  split; [by exists replies|]. by repeat split.
Qed.

(** The album of the specification: three photos tagged [g1], the third
    with the caption, 200 ms and 300 ms apart, then 1.5 s of quiet. *)
Lemma album_is_one_turn_witness :
  let g := py "g1" in
  let u1 := photo_update 7 (Some g) None [Byte.x01] in
  let u2 := photo_update 7 (Some g) None [Byte.x02] in
  let u3 := photo_update 7 (Some g) (Some (py "what is this?")) [Byte.x03] in
  let rest := [(200%N, u2); (300%N, u3)] in
  let cfg := sample_config (py "openai") 20 in
  let net := net_answer (py "A cat.") in
  let turn :=
    CParts ((image_of <$> [u1; u2; u3])
            ++ [make_text_part
                  (or_else (stored_caption [] [u1; u2; u3]) PROMPT_MANY)]) in
  let w1 := elapse cfg net id 1500
              (arrivals cfg net id ((0%N, u1) :: rest) empty_world) in
  g ≠ []
  ∧ _media_groups empty_world !! g = None
  ∧ timers empty_world = []
  ∧ media_group_id u1 = Some g
  ∧ Forall (λ ev : N * Update,
              (ev.1 < _MEDIA_GROUP_TIMEOUT)%N ∧ media_group_id ev.2 = Some g) rest
  ∧ (_MEDIA_GROUP_TIMEOUT ≤ 1500)%N
  ∧ stored_caption [] [u1; u2; u3] = py "what is this?"
  ∧ (∃ replies : list pystr,
       trace w1
       = trace empty_world
         ++ [SendAction 7 (py "typing");
             AskAI (trimmed cfg (history_at empty_world 7
                                 ++ [Item (py "user") turn]))]
         ++ (ReplyText 7 <$> replies))
  ∧ _media_groups w1 = _media_groups empty_world
  ∧ timers w1 = [].
Proof.
  cbv zeta.
  assert (py "g1" ≠ []) as H1 by done.
  assert (_media_groups empty_world !! py "g1" = None) as H2 by apply lookup_empty.
  assert (timers empty_world = []) as H3 by reflexivity.
  assert (media_group_id (photo_update 7 (Some (py "g1")) None [Byte.x01])
          = Some (py "g1")) as H4 by reflexivity.
  assert (Forall (λ ev : N * Update,
                    (ev.1 < _MEDIA_GROUP_TIMEOUT)%N
                    ∧ media_group_id ev.2 = Some (py "g1"))
            [(200%N, photo_update 7 (Some (py "g1")) None [Byte.x02]);
             (300%N, photo_update 7 (Some (py "g1")) (Some (py "what is this?"))
                       [Byte.x03])]) as H5
    by (repeat constructor).
  assert (_MEDIA_GROUP_TIMEOUT ≤ 1500)%N as H6 by reflexivity.
  pose proof (album_is_one_turn (sample_config (py "openai") 20)
                (net_answer (py "A cat.")) id (py "g1") empty_world 0%N _ _ 1500%N
                H1 H2 H3 H4 H5 H6) as (Ht & _ & _ & Hg & Hts).
  split; [exact H1|]. split; [exact H2|]. split; [exact H3|].
  split; [exact H4|]. split; [exact H5|]. split; [exact H6|].
  split; [reflexivity|].
  split; [exact Ht|]. split; [exact Hg|exact Hts].
Defined.

(** The same album, run: the one call of the provider carries the three
    images in order and then the caption. *)
Example album_g1_run :
  let g := py "g1" in
  let u1 := photo_update 7 (Some g) None [Byte.x01] in
  let u2 := photo_update 7 (Some g) None [Byte.x02] in
  let u3 := photo_update 7 (Some g) (Some (py "what is this?")) [Byte.x03] in
  let cfg := sample_config (py "openai") 20 in
  let net := net_answer (py "A cat.") in
  let w1 := elapse cfg net id 1500
              (arrivals cfg net id [(0%N, u1); (200%N, u2); (300%N, u3)]
                 empty_world) in
  let turn :=
    Item (py "user")
      (CParts [ [(py "type", py "image_b64"); (py "data", py "AQ==");
                 (py "mime", py "image/jpeg")];
                [(py "type", py "image_b64"); (py "data", py "Ag==");
                 (py "mime", py "image/jpeg")];
                [(py "type", py "image_b64"); (py "data", py "Aw==");
                 (py "mime", py "image/jpeg")];
                [(py "type", py "text"); (py "text", py "what is this?")] ]) in
  trace w1 = [SendAction 7 (py "typing"); AskAI [turn]; ReplyText 7 (py "A cat.")]
  ∧ history_at w1 7 = [turn; assistant_turn (py "A cat.")].
Proof. vm_compute. split; reflexivity. Qed.

(** * Further properties of the code *)

(** ** [_split] outside its use *)

(** X1.  A zero size raises the [ValueError] of [range]; a negative size gives no
    chunk at all, whatever the text. *)
Theorem split_nonpositive_size {A} (text : list A) (S : Z) :
  S ≤ 0 →
  _split text S
  = if S =? 0 then Raise (ValueError (py "range() arg 3 must not be zero"))
    else Ok [].
Proof.
  intros HS. unfold _split, py_range, range_len.
  destruct (Z.eqb_spec S 0) as [?|?]; [done|].
  destruct (Z.ltb_spec 0 S) as [?|_]; [lia|].
  destruct (Z.ltb_spec (Z.max (Z.of_nat (length text)) 1) 0) as [?|_]; [lia|].
  reflexivity.
Qed.

Lemma split_nonpositive_size_witness :
  -3 ≤ 0 ∧ _split (py "hello") (-3) = Ok [].
Proof. split; [lia|]. apply (split_nonpositive_size (py "hello") (-3)). lia. Defined.

Lemma split_windows_cover {A} (l : list A) (s : nat) :
  (0 < s)%nat →
  ∃ n, _split l (Z.of_nat s) = Ok (windows s n l)
       ∧ (0 < n)%nat ∧ (length l ≤ n * s)%nat.
Proof.
  intros Hs. rewrite split_windows by done.
  set (M := Z.max (Z.of_nat (length l)) 1).
  set (q := (M - 1) / Z.of_nat s).
  assert (q * Z.of_nat s ≤ M - 1 < (q + 1) * Z.of_nat s) as Hq.
  { pose proof (Z.div_mod (M - 1) (Z.of_nat s) ltac:(lia)) as Hdm.
    pose proof (Z.mod_pos_bound (M - 1) (Z.of_nat s) ltac:(lia)).
    fold q in Hdm. nia. }
  assert (0 ≤ q) by (apply Z.div_pos; lia).
  exists (Z.to_nat (q + 1)). split; [done|]. split; [lia|nia].
Qed.

(** ** The turn-send procedure *)

(** X2.  When the provider answers, the replies sent are the chunks of the
    cleaned reply: at least one message, none longer than 4096 characters,
    and together the cleaned reply. *)
Theorem send_success_replies cfg net sm upd uid c w reply :
  ask_ai cfg net (trimmed cfg (history_at w uid ++ [Item (py "user") c])) = Ok reply →
  ∃ chunks : list pystr,
    trace (dispatch (_send_ai_reply cfg net sm upd uid c) w)
    = trace w
      ++ [SendAction (effective_chat upd) (py "typing");
          AskAI (trimmed cfg (history_at w uid ++ [Item (py "user") c]))]
      ++ (ReplyText (effective_chat upd) <$> chunks)
    ∧ concat chunks = sm reply
    ∧ Forall (λ ch, (length ch ≤ 4096)%nat) chunks
    ∧ chunks ≠ [].
Proof.
  intros Hok.
  destruct (run_send_success cfg net sm upd uid c w reply Hok)
    as (chunks & Hsplit & ->).
  exists chunks. split; [reflexivity|].
  destruct (split_windows_cover (sm reply) (Z.to_nat 4096) ltac:(lia))
    as (n & Hn & Hpos & Hcover).
  rewrite Z2Nat.id in Hn by lia. rewrite Hn in Hsplit. injection Hsplit as <-.
  split; [|split].
  - rewrite concat_windows. by apply take_ge.
  - apply Forall_forall. intros ch Hch.
    apply list_elem_of_lookup in Hch as [k Hk].
    apply lookup_windows in Hk as [_ ->]. rewrite length_take. lia.
  - intros Hnil. apply (f_equal length) in Hnil.
    rewrite length_windows in Hnil. simpl in Hnil. lia.
Qed.

Lemma send_success_replies_witness :
  let cfg := sample_config (py "anthropic") 20 in
  let net := net_answer (py " A cat. ") in
  let upd := text_update 7 (py "what is this?") in
  let c := CStr (py "what is this?") in
  ask_ai cfg net (trimmed cfg (history_at empty_world 7 ++ [Item (py "user") c]))
  = Ok (py "A cat.")
  ∧ ∃ chunks : list pystr,
      trace (dispatch (_send_ai_reply cfg net id upd 7 c) empty_world)
      = trace empty_world
        ++ [SendAction (effective_chat upd) (py "typing");
            AskAI (trimmed cfg (history_at empty_world 7 ++ [Item (py "user") c]))]
        ++ (ReplyText (effective_chat upd) <$> chunks)
      ∧ concat chunks = id (py "A cat.")
      ∧ Forall (λ ch, (length ch ≤ 4096)%nat) chunks
      ∧ chunks ≠ [].
Proof.
  assert (ask_ai (sample_config (py "anthropic") 20) (net_answer (py " A cat. "))
            (trimmed (sample_config (py "anthropic") 20)
               (history_at empty_world 7
                ++ [Item (py "user") (CStr (py "what is this?"))]))
          = Ok (py "A cat.")) as H by reflexivity.
  split; [exact H|].
  exact (send_success_replies _ _ id (text_update 7 (py "what is this?")) 7 _ _ _ H).
Defined.

(** X3.  With room for both turns, a call that is answered adds exactly the user
    turn and an assistant turn holding the reply as the provider gave it
    (stripped by the adapter, not cleaned of markdown). *)
Theorem send_success_appends_pair cfg net sm upd uid c w reply :
  Z.of_nat (length (history_at w uid)) + 2 ≤ 2 * MAX_HISTORY cfg →
  ask_ai cfg net (history_at w uid ++ [Item (py "user") c]) = Ok reply →
  history_at (dispatch (_send_ai_reply cfg net sm upd uid c) w) uid
  = history_at w uid ++ [Item (py "user") c; Item (py "assistant") (CStr reply)].
Proof.
  intros Hroom Hok.
  assert (∀ h : list item, Z.of_nat (length h) ≤ 2 * MAX_HISTORY cfg →
                           trimmed cfg h = h) as Hkeep.
  { intros h Hh. unfold trimmed.
    destruct (Z.gtb_spec (Z.of_nat (length h)) (MAX_HISTORY cfg * 2)); [lia|done]. }
  rewrite <- (Hkeep (history_at w uid ++ [Item (py "user") c])) in Hok
    by (rewrite length_app; simpl; lia).
  destruct (run_send_success cfg net sm upd uid c w reply Hok) as (chunks & _ & ->).
  change (history_at (with_trace ?f ?w) uid) with (history_at w uid).
  rewrite history_at_insert.
  rewrite (Hkeep (history_at w uid ++ _)) by (rewrite length_app; simpl; lia).
  rewrite Hkeep by (rewrite !length_app; simpl; lia).
  by rewrite <- app_assoc.
Qed.

Lemma send_success_appends_pair_witness :
  let cfg := sample_config (py "gemini") 2 in
  let net := net_answer (py "**Paris**") in
  let w := with_history (insert 7 [user_turn (py "hi"); assistant_turn (py "hello")])
             empty_world in
  let c := CStr (py "capital of France?") in
  Z.of_nat (length (history_at w 7)) + 2 ≤ 2 * MAX_HISTORY cfg
  ∧ ask_ai cfg net (history_at w 7 ++ [Item (py "user") c]) = Ok (py "**Paris**")
  ∧ history_at
      (dispatch (_send_ai_reply cfg net id (text_update 7 (py "capital of France?")) 7 c) w) 7
    = history_at w 7
      ++ [Item (py "user") c; Item (py "assistant") (CStr (py "**Paris**"))].
Proof.
  set (w := with_history (insert 7 [user_turn (py "hi"); assistant_turn (py "hello")])
              empty_world).
  assert (history_at w 7 = [user_turn (py "hi"); assistant_turn (py "hello")]) as Hw
    by apply history_at_insert.
  assert (Z.of_nat (length (history_at w 7)) + 2
          ≤ 2 * MAX_HISTORY (sample_config (py "gemini") 2)) as H1
    by (rewrite Hw; simpl; lia).
  assert (ask_ai (sample_config (py "gemini") 2) (net_answer (py "**Paris**"))
            (history_at w 7 ++ [Item (py "user") (CStr (py "capital of France?"))])
          = Ok (py "**Paris**")) as H2 by (rewrite Hw; reflexivity).
  cbv zeta. split; [exact H1|]. split; [exact H2|].
  exact (send_success_appends_pair _ _ id _ 7 _ w _ H1 H2).
Defined.

(** ** [_trim_history] at the edges of [MAX_HISTORY] *)

Lemma trimmed_zero cfg (h : list item) : MAX_HISTORY cfg = 0 → trimmed cfg h = h.
Proof.
  intros H0. unfold trimmed. rewrite H0.
  destruct (Z.of_nat (length h) >? 0 * 2); [|done]. by destruct h.
Qed.

(** X4.  With [MAX_HISTORY >= 0] trimming twice is trimming once. *)
Theorem trimmed_idempotent cfg (h : list item) :
  0 ≤ MAX_HISTORY cfg → trimmed cfg (trimmed cfg h) = trimmed cfg h.
Proof.
  intros Hm. destruct (decide (MAX_HISTORY cfg = 0)) as [H0|Hne].
  - by rewrite !trimmed_zero.
  - rewrite !trimmed_drop by lia. rewrite drop_drop, length_drop. f_equal. lia.
Qed.

Lemma trimmed_idempotent_witness :
  let cfg := sample_config (py "openai") 1 in
  let h := [user_turn (py "q1"); assistant_turn (py "a1"); user_turn (py "q2")] in
  0 ≤ MAX_HISTORY cfg ∧ trimmed cfg (trimmed cfg h) = trimmed cfg h.
Proof.
  split; [done|]. apply (trimmed_idempotent (sample_config (py "openai") 1)). done.
Defined.

(** X5.  [MAX_HISTORY = 0] switches trimming off: the slice [hist[-0:]] is the
    whole list.  A negative [MAX_HISTORY] makes every trim cut the
    [2 * |MAX_HISTORY|] oldest entries, however short the history. *)
Theorem trimmed_nonpositive cfg (h : list item) :
  MAX_HISTORY cfg ≤ 0 →
  trimmed cfg h = drop (Z.to_nat (- (2 * MAX_HISTORY cfg))) h.
Proof.
  intros Hm. unfold trimmed, slice_from, clip_index.
  destruct (Z.gtb_spec (Z.of_nat (length h)) (MAX_HISTORY cfg * 2)) as [Hgt|Hle].
  - destruct (Z.ltb_spec (- (MAX_HISTORY cfg * 2)) 0) as [?|_]; [lia|].
    destruct (decide (Z.to_nat (- (2 * MAX_HISTORY cfg)) ≤ length h)%nat).
    + f_equal. lia.
    + rewrite !drop_ge by lia. done.
  - assert (MAX_HISTORY cfg = 0 ∧ length h = 0%nat) as [H0 Hl] by lia.
    rewrite H0. by destruct h.
Qed.

Lemma trimmed_nonpositive_witness :
  let cfg := sample_config (py "openai") (-1) in
  let h := [user_turn (py "q1"); assistant_turn (py "a1"); user_turn (py "q2")] in
  MAX_HISTORY cfg ≤ 0
  ∧ trimmed cfg h = drop (Z.to_nat (- (2 * MAX_HISTORY cfg))) h
  ∧ trimmed cfg h = [user_turn (py "q2")].
Proof.
  cbv zeta. split; [done|]. split; [|reflexivity].
  apply (trimmed_nonpositive (sample_config (py "openai") (-1))). done.
Defined.

(** ** Malformed parts *)

Ltac missing_cases p :=
  unfold missing_key, part_get;
  destruct (dict_get p (py "type")) as [ty|]; cbn [bind]; [|done];
  repeat (destruct (decide _); cbn [bind]);
  repeat (match goal with
          | |- context [dict_get p ?k] => destruct (dict_get p k)
          end; cbn [bind]);
  eauto.

Lemma openai_part_missing p :
  match missing_key p with
  | Some k => openai_part p = Raise (KeyError k)
  | None => ∃ ws, openai_part p = Ok ws
  end.
Proof. unfold openai_part. missing_cases p. Qed.

Lemma gemini_part_missing p :
  match missing_key p with
  | Some k => gemini_part p = Raise (KeyError k)
  | None => ∃ ws, gemini_part p = Ok ws
  end.
Proof. unfold gemini_part. missing_cases p. Qed.

Lemma anthropic_part_missing p :
  match missing_key p with
  | Some k => anthropic_part p = Raise (KeyError k)
  | None => ∃ ws, anthropic_part p = Ok ws
  end.
Proof. unfold anthropic_part. missing_cases p. Qed.

(** X6.  A part makes a serializer raise exactly when a key its type needs is
    missing, and what is raised is the [KeyError] of the first such key, the
    same in the three serializers; every other part, foreign types included,
    goes through. *)
Theorem part_raises_on_missing_key (p : part) :
  match missing_key p with
  | Some k =>
      openai_part p = Raise (KeyError k)
      ∧ gemini_part p = Raise (KeyError k)
      ∧ anthropic_part p = Raise (KeyError k)
  | None =>
      ∃ w1 w2 w3,
        openai_part p = Ok w1 ∧ gemini_part p = Ok w2 ∧ anthropic_part p = Ok w3
  end.
Proof.
  pose proof (openai_part_missing p) as H1.
  pose proof (gemini_part_missing p) as H2.
  pose proof (anthropic_part_missing p) as H3.
  destruct (missing_key p) as [k|]; [done|].
  destruct H1 as [w1 H1], H2 as [w2 H2], H3 as [w3 H3]. eauto 10.
Qed.

Lemma mapM_app_raise {A B} (f : A → result B) l1 x l2 e :
  (∃ ys, mapM f l1 = Ok ys) → f x = Raise e → mapM f (l1 ++ x :: l2) = Raise e.
Proof.
  intros [ys Hys] Hx. revert ys Hys. induction l1 as [|a l1 IH]; intros ys Hys.
  - cbn [app mapM]. by rewrite Hx.
  - cbn [app mapM] in *. destruct (f a); [|done]. cbn [bind] in *.
    destruct (mapM f l1) as [ys'|]; [|done]. by rewrite (IH ys').
Qed.

Lemma parts_loop_complete (body : part → result (list json)) ps :
  (∀ p, missing_key p = None → ∃ ws, body p = Ok ws) →
  Forall (λ p, missing_key p = None) ps → ∃ ws, parts_loop body ps = Ok ws.
Proof.
  intros Hb Hps. unfold parts_loop.
  destruct (mapM_Forall_ok body ps) as [xs ->]; [|by eexists].
  eapply Forall_impl; [exact Hps|]. exact Hb.
Qed.

Lemma parts_loop_raise (body : part → result (list json)) ps1 p ps2 k :
  (∀ p, missing_key p = None → ∃ ws, body p = Ok ws) →
  Forall (λ p, missing_key p = None) ps1 →
  body p = Raise (KeyError k) →
  parts_loop body (ps1 ++ p :: ps2) = Raise (KeyError k).
Proof.
  intros Hb Hps Hp. unfold parts_loop.
  rewrite (mapM_app_raise body ps1 p ps2 (KeyError k)); [done| |done].
  apply mapM_Forall_ok. eapply Forall_impl; [exact Hps|]. exact Hb.
Qed.

Lemma part_ok_of_complete (body : part → result (list json)) :
  (∀ p, match missing_key p with
        | Some k => body p = Raise (KeyError k)
        | None => ∃ ws, body p = Ok ws
        end) →
  ∀ p, missing_key p = None → ∃ ws, body p = Ok ws.
Proof. intros Hb p Hp. specialize (Hb p). by rewrite Hp in Hb. Qed.

Lemma part_raise_of_missing (body : part → result (list json)) :
  (∀ p, match missing_key p with
        | Some k => body p = Raise (KeyError k)
        | None => ∃ ws, body p = Ok ws
        end) →
  ∀ p k, missing_key p = Some k → body p = Raise (KeyError k).
Proof. intros Hb p k Hp. specialize (Hb p). by rewrite Hp in Hb. Qed.

(** X7.  A history whose first incomplete part misses the key [k] makes every
    adapter raise [KeyError k] before anything is sent: the outcome is the
    same whatever the provider would answer. *)
Theorem incomplete_part_fails_the_call cfg net h1 r ps1 p ps2 h2 k :
  Forall complete_parts h1 →
  Forall (λ q, missing_key q = None) ps1 →
  missing_key p = Some k →
  let h := h1 ++ Item r (CParts (ps1 ++ p :: ps2)) :: h2 in
  _ask_openai cfg net h = Raise (KeyError k)
  ∧ _ask_openrouter cfg net h = Raise (KeyError k)
  ∧ _ask_gemini cfg net h = Raise (KeyError k)
  ∧ _ask_anthropic cfg net h = Raise (KeyError k).
Proof.
  intros Hh1 Hps1 Hp h.
  assert (_build_openai_messages h = Raise (KeyError k)) as Ho.
  { apply mapM_app_raise.
    - apply mapM_Forall_ok. eapply Forall_impl; [exact Hh1|].
      intros it Hit. unfold complete_parts in Hit. unfold openai_message.
      destruct (item_content it) as [s|ps]; [by eexists|].
      destruct (parts_loop_complete openai_part ps
                  (part_ok_of_complete _ openai_part_missing) Hit) as [ws ->].
      by eexists.
    - unfold openai_message. cbn [item_content].
      by rewrite (parts_loop_raise openai_part ps1 p ps2 k
                    (part_ok_of_complete _ openai_part_missing) Hps1
                    (part_raise_of_missing _ openai_part_missing p k Hp)). }
  assert (_build_gemini_contents h = Raise (KeyError k)) as Hg.
  { apply mapM_app_raise.
    - apply mapM_Forall_ok. eapply Forall_impl; [exact Hh1|].
      intros it Hit. unfold complete_parts in Hit. unfold gemini_content.
      destruct (item_content it) as [s|ps]; [by eexists|].
      destruct (parts_loop_complete gemini_part ps
                  (part_ok_of_complete _ gemini_part_missing) Hit) as [ws ->].
      by eexists.
    - unfold gemini_content. cbn [item_content].
      by rewrite (parts_loop_raise gemini_part ps1 p ps2 k
                    (part_ok_of_complete _ gemini_part_missing) Hps1
                    (part_raise_of_missing _ gemini_part_missing p k Hp)). }
  assert (_build_anthropic_messages h = Raise (KeyError k)) as Ha.
  { apply mapM_app_raise.
    - apply mapM_Forall_ok. eapply Forall_impl; [exact Hh1|].
      intros it Hit. unfold complete_parts in Hit. unfold anthropic_message.
      destruct (item_content it) as [s|ps]; [by eexists|].
      destruct (parts_loop_complete anthropic_part ps
                  (part_ok_of_complete _ anthropic_part_missing) Hit) as [ws ->].
      by eexists.
    - unfold anthropic_message. cbn [item_content].
      by rewrite (parts_loop_raise anthropic_part ps1 p ps2 k
                    (part_ok_of_complete _ anthropic_part_missing) Hps1
                    (part_raise_of_missing _ anthropic_part_missing p k Hp)). }
  unfold _ask_openai, _ask_openrouter, _ask_gemini, _ask_anthropic,
    openai_request, openrouter_request, gemini_request, anthropic_request.
  rewrite Ho, Hg, Ha. by repeat split.
Qed.

Lemma incomplete_part_fails_the_call_witness :
  let cfg := sample_config (py "openai") 20 in
  let net := net_answer (py "fine") in
  let h1 := [user_turn (py "hi"); assistant_turn (py "hello")] in
  let ps1 := [make_text_part (py "look")] in
  let p := [(py "type", py "image_b64"); (py "data", py "AQ==")] in
  let h := h1 ++ Item (py "user") (CParts (ps1 ++ p :: [])) :: [] in
  Forall complete_parts h1
  ∧ Forall (λ q, missing_key q = None) ps1
  ∧ missing_key p = Some (py "mime")
  ∧ _ask_openai cfg net h = Raise (KeyError (py "mime"))
  ∧ _ask_openrouter cfg net h = Raise (KeyError (py "mime"))
  ∧ _ask_gemini cfg net h = Raise (KeyError (py "mime"))
  ∧ _ask_anthropic cfg net h = Raise (KeyError (py "mime")).
Proof.
  assert (Forall complete_parts [user_turn (py "hi"); assistant_turn (py "hello")])
    as H1 by (repeat constructor).
  assert (Forall (λ q, missing_key q = None) [make_text_part (py "look")])
    as H2 by (repeat constructor).
  assert (missing_key [(py "type", py "image_b64"); (py "data", py "AQ==")]
          = Some (py "mime")) as H3 by reflexivity.
  split; [exact H1|]. split; [exact H2|]. split; [exact H3|].
  exact (incomplete_part_fails_the_call (sample_config (py "openai") 20)
           (net_answer (py "fine")) _ (py "user") _ _ [] [] _ H1 H2 H3).
Defined.

(** ** Reading the reply *)

Lemma bind_ok_inv {A B} (m : result A) (k : A → result B) b :
  bind m k = Ok b → ∃ a, m = Ok a ∧ k a = Ok b.
Proof. destruct m as [a|]; [|done]. cbn. eauto. Qed.

Lemma jfirst_ok_inv j x : jfirst j = Ok x → ∃ rest, j = JArr (x :: rest).
Proof.
  destruct j as [| | | |[|y l]|]; try done. cbn. intros [= ->]. eauto.
Qed.

Lemma jstrip_ok_inv j r : jstrip j = Ok r → ∃ s, j = JStr s ∧ r = strip s.
Proof. destruct j; try done. cbn. intros [= <-]. eauto. Qed.

(** X8.  Each adapter returns a reply exactly when the field it reads is there
    and holds a string: the first choice's message content (OpenAI,
    OpenRouter), the text of the first part of the first candidate's content
    (Gemini), the text of the first content block (Anthropic).  The reply is
    that string stripped; in every other case the adapter raises. *)
Theorem reply_needs_its_field (response : json) (r : pystr) :
  (openai_reply response = Ok r
   ↔ ∃ c rest m s,
       jget response (py "choices") = Ok (JArr (c :: rest))
       ∧ jget c (py "message") = Ok m
       ∧ jget m (py "content") = Ok (JStr s)
       ∧ r = strip s)
  ∧ (gemini_reply response = Ok r
     ↔ ∃ c rest ct p prest s,
         jget response (py "candidates") = Ok (JArr (c :: rest))
         ∧ jget c (py "content") = Ok ct
         ∧ jget ct (py "parts") = Ok (JArr (p :: prest))
         ∧ jget p (py "text") = Ok (JStr s)
         ∧ r = strip s)
  ∧ (anthropic_reply response = Ok r
     ↔ ∃ b rest s,
         jget response (py "content") = Ok (JArr (b :: rest))
         ∧ jget b (py "text") = Ok (JStr s)
         ∧ r = strip s).
Proof.
  split; [|split]; split.
  - unfold openai_reply. intros H.
    apply bind_ok_inv in H as (choices & H1 & H).
    apply bind_ok_inv in H as (c & H2 & H).
    apply bind_ok_inv in H as (m & H3 & H).
    apply bind_ok_inv in H as (t & H4 & H).
    apply jfirst_ok_inv in H2 as [rest ->].
    apply jstrip_ok_inv in H as (s & -> & ->). eauto 10.
  - intros (c & rest & m & s & H1 & H2 & H3 & ->).
    unfold openai_reply. rewrite H1. cbn [bind jfirst]. rewrite H2. cbn [bind].
    rewrite H3. reflexivity.
  - unfold gemini_reply. intros H.
    apply bind_ok_inv in H as (cands & H1 & H).
    apply bind_ok_inv in H as (c & H2 & H).
    apply bind_ok_inv in H as (ct & H3 & H).
    apply bind_ok_inv in H as (ps & H4 & H).
    apply bind_ok_inv in H as (p & H5 & H).
    apply bind_ok_inv in H as (t & H6 & H).
    apply jfirst_ok_inv in H2 as [rest ->].
    apply jfirst_ok_inv in H5 as [prest ->].
    apply jstrip_ok_inv in H as (s & -> & ->). eauto 12.
  - intros (c & rest & ct & p & prest & s & H1 & H2 & H3 & H4 & ->).
    unfold gemini_reply. rewrite H1. cbn [bind jfirst]. rewrite H2. cbn [bind].
    rewrite H3. cbn [bind jfirst]. rewrite H4. reflexivity.
  - unfold anthropic_reply. intros H.
    apply bind_ok_inv in H as (ct & H1 & H).
    apply bind_ok_inv in H as (b & H2 & H).
    apply bind_ok_inv in H as (t & H3 & H).
    apply jfirst_ok_inv in H2 as [rest ->].
    apply jstrip_ok_inv in H as (s & -> & ->). eauto 10.
  - intros (b & rest & s & H1 & H2 & ->).
    unfold anthropic_reply. rewrite H1. cbn [bind jfirst]. rewrite H2. reflexivity.
Qed.

Example gemini_no_candidates :
  gemini_reply (JObj [(py "candidates", JArr []);
                      (py "promptFeedback", JObj [(py "blockReason", JStr (py "SAFETY"))])])
  = Raise (IndexError (py "list index out of range")).
Proof. reflexivity. Qed.

Example openai_null_content :
  openai_reply
    (JObj [(py "choices",
            JArr [JObj [(py "message",
                         JObj [(py "role", JStr (py "assistant"));
                               (py "content", JNull)])]])])
  = Raise (AttributeError (py "'NoneType' object has no attribute 'strip'")).
Proof. reflexivity. Qed.

Lemma openai_reply_stripped j r : openai_reply j = Ok r → ∃ s, r = strip s.
Proof.
  unfold openai_reply. intros H.
  repeat (apply bind_ok_inv in H as (? & _ & H)).
  apply jstrip_ok_inv in H as (s & _ & ->). eauto.
Qed.

Lemma gemini_reply_stripped j r : gemini_reply j = Ok r → ∃ s, r = strip s.
Proof.
  unfold gemini_reply. intros H.
  repeat (apply bind_ok_inv in H as (? & _ & H)).
  apply jstrip_ok_inv in H as (s & _ & ->). eauto.
Qed.

Lemma anthropic_reply_stripped j r : anthropic_reply j = Ok r → ∃ s, r = strip s.
Proof.
  unfold anthropic_reply. intros H.
  repeat (apply bind_ok_inv in H as (? & _ & H)).
  apply jstrip_ok_inv in H as (s & _ & ->). eauto.
Qed.

Lemma ask_ai_stripped cfg net h r : ask_ai cfg net h = Ok r → no_outer_space r.
Proof.
  unfold ask_ai, _ask_openrouter, _ask_openai, _ask_gemini, _ask_anthropic.
  intros H.
  repeat (destruct (decide _) as [_|_]); try done;
    apply bind_ok_inv in H as (? & _ & H);
    apply bind_ok_inv in H as (? & _ & H).
  - apply openai_reply_stripped in H as [s ->]. apply strip_no_outer_space.
  - apply openai_reply_stripped in H as [s ->]. apply strip_no_outer_space.
  - apply gemini_reply_stripped in H as [s ->]. apply strip_no_outer_space.
  - apply anthropic_reply_stripped in H as [s ->]. apply strip_no_outer_space.
Qed.

(** X9.  Whatever the provider sends and whichever adapter is configured, a reply
    that [ask_ai] returns neither starts nor ends with white space. *)
Theorem ask_ai_reply_is_stripped cfg net (history : list item) (reply : pystr) :
  ask_ai cfg net history = Ok reply → no_outer_space reply.
Proof. apply ask_ai_stripped. Qed.

Lemma ask_ai_reply_is_stripped_witness :
  let cfg := sample_config (py "gemini") 20 in
  let net := net_answer ([10%N] ++ py "  Paris. " ++ [10%N]) in
  ask_ai cfg net [user_turn (py "capital of France?")] = Ok (py "Paris.")
  ∧ no_outer_space (py "Paris.").
Proof.
  assert (ask_ai (sample_config (py "gemini") 20)
            (net_answer ([10%N] ++ py "  Paris. " ++ [10%N]))
            [user_turn (py "capital of France?")] = Ok (py "Paris.")) as H
    by reflexivity.
  split; [exact H|]. exact (ask_ai_reply_is_stripped _ _ _ _ H).
Defined.

(** ** One wire message for each turn *)

Lemma mapM_Forall2 {A B} (f : A → result B) l ys :
  mapM f l = Ok ys → Forall2 (λ x y, f x = Ok y) l ys.
Proof.
  revert ys. induction l as [|x l IH]; intros ys.
  - cbn. intros [= <-]. constructor.
  - cbn [mapM]. intros H.
    apply bind_ok_inv in H as (y & Hy & H).
    apply bind_ok_inv in H as (ys' & Hys & H). injection H as <-.
    constructor; auto.
Qed.

(** X10.  A serializer that succeeds gives one wire message for each turn, in
    order, even for a turn whose parts were all skipped.  OpenAI and
    Anthropic pass the stored role through; Gemini sends [user] for the role
    [user] and [model] for any other role. *)
Theorem one_message_per_turn (history : list item) :
  (∀ ms, _build_openai_messages history = Ok ms →
         Forall2 (λ it m, jget m (py "role") = Ok (JStr (role it))) history ms)
  ∧ (∀ cs, _build_gemini_contents history = Ok cs →
           Forall2 (λ it c, jget c (py "role")
                            = Ok (JStr (if decide (role it = py "user")
                                        then py "user" else py "model")))
             history cs)
  ∧ (∀ ms, _build_anthropic_messages history = Ok ms →
           Forall2 (λ it m, jget m (py "role") = Ok (JStr (role it))) history ms).
Proof.
  split; [|split]; intros ms Hms; apply mapM_Forall2 in Hms;
    (eapply Forall2_impl; [exact Hms|]); intros it m Hm; cbn beta in Hm.
  - unfold openai_message in Hm. destruct (item_content it).
    + by injection Hm as <-.
    + apply bind_ok_inv in Hm as (ws & _ & Hm). by injection Hm as <-.
  - unfold gemini_content in Hm.
    apply bind_ok_inv in Hm as (ws & _ & Hm). by injection Hm as <-.
  - unfold anthropic_message in Hm. destruct (item_content it).
    + by injection Hm as <-.
    + apply bind_ok_inv in Hm as (ws & _ & Hm). by injection Hm as <-.
Qed.

Example system_role_goes_to_gemini_as_model :
  _build_gemini_contents [Item (py "system") (CStr (py "be brief"))]
  = Ok [JObj [(py "role", JStr (py "model"));
              (py "parts", JArr [JObj [(py "text", JStr (py "be brief"))]])]].
Proof. reflexivity. Qed.

(** ** config.py *)

(** X11.  The model name sent to the provider is never empty: [AI_MODEL] when it
    is set, else the default of the provider, else the fallback. *)
Theorem get_model_is_set cfg :
  truthy (get_model cfg) = true
  ∧ get_model cfg
    = if truthy (AI_MODEL cfg) then AI_MODEL cfg
      else if decide (AI_PROVIDER cfg = py "openai") then py "gpt-4o"
      else if decide (AI_PROVIDER cfg = py "gemini") then py "gemini-1.5-pro"
      else if decide (AI_PROVIDER cfg = py "anthropic")
           then py "claude-3-5-sonnet-20241022"
      else py "google/gemini-2.0-flash-001".
Proof.
  unfold get_model, or_else, DEFAULT_MODELS. cbn [dict_get].
  destruct (truthy (AI_MODEL cfg)) eqn:Hm; [done|].
  repeat (destruct (decide _) as [?|?]; try done); subst; try done.
Qed.

(** ** What the turn-send procedure leaves alone *)

Lemma history_at_insert_ne uid uid' h w :
  uid ≠ uid' → history_at (with_history (insert uid h) w) uid' = history_at w uid'.
Proof. intros Hne. unfold history_at. simpl. by rewrite lookup_insert_ne. Qed.

(** X12.  Whether the call is answered or fails, [_send_ai_reply] for one user
    changes no other user's history, no media group, no timer and not the
    clock. *)
Theorem send_touches_one_history cfg net sm upd uid c w uid' :
  uid' ≠ uid →
  let w' := dispatch (_send_ai_reply cfg net sm upd uid c) w in
  history_at w' uid' = history_at w uid'
  ∧ _media_groups w' = _media_groups w
  ∧ timers w' = timers w
  ∧ next_handle w' = next_handle w
  ∧ now w' = now w.
Proof.
  intros Hne w'. subst w'.
  destruct (send_shape cfg net sm upd uid c (history_at w uid))
    as (hist' & replies & Hsend).
  rewrite Hsend by done.
  change (history_at (with_trace ?f ?w) uid') with (history_at w uid').
  rewrite history_at_insert_ne by done. by repeat split.
Qed.

Lemma send_touches_one_history_witness :
  let cfg := sample_config (py "openai") 20 in
  let w := with_history (insert 8 [user_turn (py "hi"); assistant_turn (py "hello")])
             empty_world in
  let w' := dispatch (_send_ai_reply cfg net_down id (text_update 7 (py "q")) 7
                        (CStr (py "q"))) w in
  8 ≠ 7
  ∧ history_at w' 8 = history_at w 8
  ∧ _media_groups w' = _media_groups w
  ∧ timers w' = timers w
  ∧ next_handle w' = next_handle w
  ∧ now w' = now w.
Proof.
  split; [done|].
  apply (send_touches_one_history (sample_config (py "openai") 20) net_down id
           (text_update 7 (py "q")) 7 (CStr (py "q"))). done.
Defined.

Lemma failed_send_restores_witness :
  let cfg := sample_config (py "openai") 20 in
  let w := with_history (insert 7 [user_turn (py "hi"); assistant_turn (py "hello")])
             empty_world in
  let e := ProviderError (py "503 Service Unavailable") in
  0 < MAX_HISTORY cfg
  ∧ Z.of_nat (length (history_at w 7)) < 2 * MAX_HISTORY cfg
  ∧ ask_ai cfg net_down (history_at w 7 ++ [Item (py "user") (CStr (py "q"))]) = Raise e
  ∧ history_at
      (dispatch (_send_ai_reply cfg net_down id (text_update 7 (py "q")) 7
                   (CStr (py "q"))) w) 7
    = history_at w 7.
Proof.
  set (w := with_history (insert 7 [user_turn (py "hi"); assistant_turn (py "hello")])
              empty_world).
  assert (history_at w 7 = [user_turn (py "hi"); assistant_turn (py "hello")]) as Hw
    by apply history_at_insert.
  assert (0 < MAX_HISTORY (sample_config (py "openai") 20)) as H1 by done.
  assert (Z.of_nat (length (history_at w 7))
          < 2 * MAX_HISTORY (sample_config (py "openai") 20)) as H2
    by (rewrite Hw; done).
  assert (ask_ai (sample_config (py "openai") 20) net_down
            (history_at w 7 ++ [Item (py "user") (CStr (py "q"))])
          = Raise (ProviderError (py "503 Service Unavailable"))) as H3
    by (rewrite Hw; reflexivity).
  cbv zeta. split; [exact H1|]. split; [exact H2|]. split; [exact H3|].
  exact (failed_send_restores _ net_down id (text_update 7 (py "q")) 7 _ w _ H1 H2 H3).
Defined.

(** ** pdf_handler.py *)

Lemma join_nonempty sep (l : list pystr) :
  l ≠ [] → Forall (λ x, truthy x = true) l → truthy (join sep l) = true.
Proof.
  intros Hne Hall. destruct Hall as [|x l Hx Hl]; [done|].
  destruct x as [|c x]; [done|]. by destruct l.
Qed.

Lemma mapM_pages_ok (texts : list pystr) :
  mapM (λ page : result pystr, page) (Ok <$> texts) = Ok texts.
Proof.
  induction texts as [|t texts IH]; [done|].
  rewrite fmap_cons. cbn [mapM bind]. by rewrite IH.
Qed.

Lemma mapM_pages_raise (texts : list pystr) e (rest : list (result pystr)) :
  mapM (λ page : result pystr, page) ((Ok <$> texts) ++ Raise e :: rest) = Raise e.
Proof.
  induction texts as [|t texts IH]; [done|].
  rewrite fmap_cons. cbn [app mapM bind]. by rewrite IH.
Qed.

Lemma filter_truthy (texts : list pystr) :
  filter (λ text, truthy text = true) texts = filter (λ t, t ≠ []) texts.
Proof. apply list_filter_iff. intros [|c t]; cbn; split; done. Qed.

Lemma filter_nonempty_nil (texts : list pystr) :
  filter (λ t, t ≠ []) texts = [] ↔ Forall (λ t, t = []) texts.
Proof.
  split.
  - intros Hnil. apply Forall_forall. intros t Ht.
    destruct (decide (t = [])) as [|Hne]; [done|].
    assert (t ∈ filter (λ t, t ≠ []) texts) as Hin
      by (by apply list_elem_of_filter).
    rewrite Hnil in Hin. by apply elem_of_nil in Hin.
  - induction 1 as [|t texts' -> _ IH]; [done|].
    rewrite filter_cons. by destruct (decide _).
Qed.

(** X15.  [extract_pdf_text] never raises and never hands back an empty
    string, and what it hands back is decided by what [pypdf] does.  If
    opening the file raises, or a page raises after the pages before it were
    read, the result is the text of that exception between
    ["(Could not extract PDF text: "] and [")"].  If every page is read, the
    result is the placeholder when no page has text, and else the non-empty
    page texts joined by a blank line. *)
Theorem extract_pdf_text_is_never_empty read_pdf (data : list Byte.byte) :
  truthy (extract_pdf_text read_pdf data) = true
  ∧ (∀ e, read_pdf data = Raise e →
          extract_pdf_text read_pdf data
          = py "(Could not extract PDF text: " ++ str_exn e ++ py ")")
  ∧ (∀ texts e rest,
       read_pdf data = Ok ((Ok <$> texts) ++ Raise e :: rest) →
       extract_pdf_text read_pdf data
       = py "(Could not extract PDF text: " ++ str_exn e ++ py ")")
  ∧ (∀ texts,
       read_pdf data = Ok (Ok <$> texts) →
       extract_pdf_text read_pdf data
       = if decide (Forall (λ t, t = []) texts) then PDF_EMPTY
         else join [10%N; 10%N] (filter (λ t, t ≠ []) texts)).
Proof.
  split; [|split; [|split]].
  - unfold extract_pdf_text.
    destruct (do reader_pages <- read_pdf data; mapM (λ page, page) reader_pages)
      as [texts|e]; [|done].
    destruct (decide (filter (λ text, truthy text = true) texts = [])) as [_|Hne];
      [done|].
    apply join_nonempty; [done|].
    apply Forall_forall. intros x Hx. by apply list_elem_of_filter in Hx as [? _].
  - intros e He. unfold extract_pdf_text. by rewrite He.
  - intros texts e rest He. unfold extract_pdf_text. rewrite He. cbn [bind].
    by rewrite mapM_pages_raise.
  - intros texts He. unfold extract_pdf_text. rewrite He. cbn [bind].
    rewrite mapM_pages_ok, filter_truthy.
    destruct (decide (Forall (λ t, t = []) texts)) as [Hall|Hsome].
    + rewrite decide_True; [done|]. by apply filter_nonempty_nil.
    + rewrite decide_False; [done|]. by rewrite filter_nonempty_nil.
Qed.

(** X16.  When [pypdf] reads every page, pages without text are left out, and a
    PDF whose pages all lack text gives the placeholder. *)
Theorem extract_pdf_text_skips_empty_pages read_pdf texts (data : list Byte.byte) :
  read_pdf data = Ok (Ok <$> texts) →
  extract_pdf_text read_pdf data
  = if decide (Forall (λ t, t = []) texts) then PDF_EMPTY
    else join [10%N; 10%N] (filter (λ t, t ≠ []) texts).
Proof.
  intros Hread. unfold extract_pdf_text. rewrite Hread. cbn [bind].
  rewrite mapM_pages_ok. clear Hread.
  assert (filter (λ text, truthy text = true) texts = filter (λ t, t ≠ []) texts)
    as ->.
  { apply list_filter_iff. intros [|c t]; cbn; split; done. }
  destruct (decide (Forall (λ t, t = []) texts)) as [Hall|Hsome].
  - rewrite decide_True; [done|].
    induction Hall as [|t texts' -> _ IH]; [done|].
    rewrite filter_cons. by destruct (decide _).
  - rewrite decide_False; [done|]. intros Hnil. apply Hsome.
    apply Forall_forall. intros t Ht.
    destruct (decide (t = [])) as [|Hne]; [done|].
    assert (t ∈ filter (λ t, t ≠ []) texts) as Hin
      by (by apply list_elem_of_filter).
    rewrite Hnil in Hin. by apply elem_of_nil in Hin.
Qed.

Lemma extract_pdf_text_skips_empty_pages_witness :
  let texts := [py "Page one"; []; py "Page three"] in
  pdf_pages texts [] = Ok (Ok <$> texts)
  ∧ extract_pdf_text (pdf_pages texts) []
    = py "Page one" ++ [10%N; 10%N] ++ py "Page three".
Proof.
  split; [reflexivity|].
  rewrite (extract_pdf_text_skips_empty_pages (pdf_pages _)
             [py "Page one"; []; py "Page three"] [] eq_refl).
  reflexivity.
Defined.

Example pdf_two_pages :
  extract_pdf_text (pdf_pages [py "Page one"; []; py "Page three"]) []
  = py "Page one" ++ [10%N; 10%N] ++ py "Page three".
Proof. reflexivity. Qed.

Example pdf_reader_fails :
  extract_pdf_text (λ _, Raise (RuntimeError (py "EOF marker not found"))) []
  = py "(Could not extract PDF text: EOF marker not found)".
Proof. reflexivity. Qed.

(** ** Documents *)

Section DocumentProperties.
Variable cfg : Config.
Variable net : transport.
Variable sm : pystr → pystr.
Variable lower : pystr → pystr.
Variable read_pdf : list Byte.byte → result (list (result pystr)).

(** X17.  A file that is no image and no PDF is answered with one message and
    changes nothing else: no history entry, no provider call. *)
Theorem unsupported_document_is_only_answered upd doc name w :
  startswith (default [] (mime_type doc)) (py "image/") = false →
  default [] (mime_type doc) ≠ py "application/pdf" →
  file_name doc = Some name →
  endswith (lower name) (py ".pdf") = false →
  handle_document cfg net sm lower read_pdf upd doc w
  = (Ok tt,
     with_trace
       (λ t, t ++ [ReplyText (effective_chat upd)
                     ([9888%N; 65039%N] ++ py " Unsupported file type: `"
                      ++ or_else (default [] (mime_type doc)) name
                      ++ py "`" ++ [10%N] ++ py "Please send an image or a PDF.")])
       w).
Proof.
  intros Himg Hpdf Hname Hext. unfold handle_document.
  rewrite Himg, Hname. unfold bindM.
  destruct (decide (default [] (mime_type doc) = py "application/pdf")); [done|].
  unfold ret. rewrite Hext. reflexivity.
Qed.

(** X18.  A file with no name and a MIME type that is neither an image nor
    [application/pdf] (or none) makes the handler raise on [file_name.lower()]:
    nothing is stored and nothing is answered. *)
Theorem nameless_document_raises upd doc w :
  startswith (default [] (mime_type doc)) (py "image/") = false →
  default [] (mime_type doc) ≠ py "application/pdf" →
  file_name doc = None →
  handle_document cfg net sm lower read_pdf upd doc w
  = (Raise (AttributeError (py "'NoneType' object has no attribute 'lower'")), w).
Proof.
  intros Himg Hpdf Hname. unfold handle_document.
  rewrite Himg, Hname. unfold bindM.
  by destruct (decide (default [] (mime_type doc) = py "application/pdf")).
Qed.

(** X19.  A PDF (by MIME type, or by a name that ends in [.pdf] once lower-cased)
    without caption is stored and acknowledged: the history gains one user
    turn holding the extracted text as a PDF part and is trimmed, the
    provider is not called, and the only outputs are the typing action and
    the acknowledgement. *)
Theorem pdf_without_caption_is_stored upd doc w :
  startswith (default [] (mime_type doc)) (py "image/") = false →
  (default [] (mime_type doc) = py "application/pdf"
   ∨ ∃ name, file_name doc = Some name ∧ endswith (lower name) (py ".pdf") = true) →
  strip (default [] (message_caption upd)) = [] →
  handle_document cfg net sm lower read_pdf upd doc w
  = (Ok tt,
     with_trace
       (λ t, t ++ [SendAction (effective_chat upd) (py "typing");
                   ReplyText (effective_chat upd) PDF_STORED])
       (with_history
          (insert (effective_user_id upd)
             (trimmed cfg
                (history_at w (effective_user_id upd)
                 ++ [Item (py "user")
                       (CParts [make_pdf_part
                                  (extract_pdf_text read_pdf (file_bytes doc))])])))
          w)).
Proof.
  intros Himg Hpdf Hcap. unfold handle_document. rewrite Himg, Hcap.
  cbn [truthy].
  assert (∀ k : bool → M unit,
            bindM (if decide (default [] (mime_type doc) = py "application/pdf")
                   then ret true
                   else match file_name doc with
                        | Some name => ret (endswith (lower name) (py ".pdf"))
                        | None =>
                            raise (AttributeError
                                     (py "'NoneType' object has no attribute 'lower'"))
                        end) k w = k true w) as ->.
  { intros k. unfold bindM.
    destruct (decide (default [] (mime_type doc) = py "application/pdf")) as [|Hne];
      [done|].
    destruct Hpdf as [?|(name & -> & Hext)]; [done|]. unfold ret. by rewrite Hext. }
  unfold bindM at 1. unfold emit at 1.
  unfold bindM at 1. rewrite run_history_append.
  unfold bindM at 1. rewrite run_trim_history.
  change (history_at (with_history ?f (with_trace ?g ?w)) ?u)
    with (history_at (with_history f w) u).
  rewrite history_at_insert.
  unfold reply_text, emit. f_equal. world_eq.
Qed.
End DocumentProperties.

Lemma unsupported_document_is_only_answered_witness :
  let doc := {| mime_type := Some (py "text/plain");
                file_name := Some (py "Notes.TXT"); file_bytes := [] |} in
  let upd := document_update 7 None in
  startswith (default [] (mime_type doc)) (py "image/") = false
  ∧ default [] (mime_type doc) ≠ py "application/pdf"
  ∧ file_name doc = Some (py "Notes.TXT")
  ∧ endswith (ascii_lower (py "Notes.TXT")) (py ".pdf") = false
  ∧ handle_document (sample_config (py "openai") 20) net_down id ascii_lower
      (pdf_pages []) upd doc empty_world
    = (Ok tt,
       with_trace
         (λ t, t ++ [ReplyText 7
                       ([9888%N; 65039%N]
                        ++ py " Unsupported file type: `text/plain`" ++ [10%N]
                        ++ py "Please send an image or a PDF.")])
         empty_world).
Proof.
  cbv zeta.
  split; [reflexivity|]. split; [done|]. split; [reflexivity|]. split; [reflexivity|].
  apply (unsupported_document_is_only_answered (sample_config (py "openai") 20)
           net_down id ascii_lower (pdf_pages []) (document_update 7 None)
           {| mime_type := Some (py "text/plain");
              file_name := Some (py "Notes.TXT"); file_bytes := [] |}
           (py "Notes.TXT")); done.
Defined.

Lemma nameless_document_raises_witness :
  let doc := {| mime_type := None; file_name := None; file_bytes := [] |} in
  startswith (default [] (mime_type doc)) (py "image/") = false
  ∧ default [] (mime_type doc) ≠ py "application/pdf"
  ∧ file_name doc = None
  ∧ handle_document (sample_config (py "openai") 20) net_down id ascii_lower
      (pdf_pages []) (document_update 7 None) doc empty_world
    = (Raise (AttributeError (py "'NoneType' object has no attribute 'lower'")),
       empty_world).
Proof.
  cbv zeta.
  split; [reflexivity|]. split; [done|]. split; [reflexivity|].
  apply nameless_document_raises; done.
Defined.

Lemma pdf_without_caption_is_stored_witness :
  let cfg := sample_config (py "openai") 20 in
  let doc := {| mime_type := Some (py "application/octet-stream");
                file_name := Some (py "Report.PDF"); file_bytes := [] |} in
  let upd := document_update 7 (Some (py "  ")) in
  startswith (default [] (mime_type doc)) (py "image/") = false
  ∧ (default [] (mime_type doc) = py "application/pdf"
     ∨ ∃ name, file_name doc = Some name
               ∧ endswith (ascii_lower name) (py ".pdf") = true)
  ∧ strip (default [] (message_caption upd)) = []
  ∧ handle_document cfg net_down id ascii_lower (pdf_pages [py "Quarterly report"])
      upd doc empty_world
    = (Ok tt,
       with_trace
         (λ t, t ++ [SendAction 7 (py "typing"); ReplyText 7 PDF_STORED])
         (with_history
            (insert 7
               (trimmed cfg
                  (history_at empty_world 7
                   ++ [Item (py "user")
                         (CParts [make_pdf_part
                                    (extract_pdf_text
                                       (pdf_pages [py "Quarterly report"])
                                       (file_bytes doc))])])))
            empty_world)).
Proof.
  cbv zeta.
  assert (default [] (mime_type {| mime_type := Some (py "application/octet-stream");
                                   file_name := Some (py "Report.PDF");
                                   file_bytes := [] |}) = py "application/pdf"
          ∨ ∃ name, file_name {| mime_type := Some (py "application/octet-stream");
                                 file_name := Some (py "Report.PDF");
                                 file_bytes := [] |} = Some name
                    ∧ endswith (ascii_lower name) (py ".pdf") = true) as H2
    by (right; exists (py "Report.PDF"); split; reflexivity).
  split; [reflexivity|]. split; [exact H2|]. split; [reflexivity|].
  apply (pdf_without_caption_is_stored (sample_config (py "openai") 20) net_down id
           ascii_lower (pdf_pages [py "Quarterly report"])
           (document_update 7 (Some (py "  ")))); [reflexivity|exact H2|reflexivity].
Defined.

(** ** Photos *)

Ltac group_steps :=
  unfold bindM, group_update, group_field, call_later, cancel, ret,
    with_groups, with_timers, with_next_handle;
  repeat
    (cbn [g_parts g_caption g_update g_uid g_task snd fst
          user_history _media_groups timers next_handle now trace];
     rewrite ?alter_insert_eq, ?lookup_insert_eq, ?insert_insert_eq).

(** The world a photo with a batch identifier leaves. *)
Lemma run_photo_batched cfg net sm u w g :
  media_group_id u = Some g → g ≠ [] →
  let old := default {| g_parts := []; g_caption := []; g_update := u;
                        g_uid := effective_user_id u; g_task := None |}
               (_media_groups w !! g) in
  dispatch (handle_photo cfg net sm u) w
  = {| user_history := user_history w;
       _media_groups :=
         <[g := {| g_parts := g_parts old ++ [image_of u];
                   g_caption := if truthy (caption_of u) then caption_of u
                                else g_caption old;
                   g_update := g_update old; g_uid := g_uid old;
                   g_task := Some (next_handle w) |}]> (_media_groups w);
       timers :=
         match g_task old with
         | Some h => filter (λ t, t_id t ≠ h) (timers w)
         | None => timers w
         end ++ [{| t_id := next_handle w;
                    t_due := (now w + _MEDIA_GROUP_TIMEOUT)%N; t_mgid := g |}];
       next_handle := S (next_handle w);
       now := now w;
       trace := trace w |}.
Proof.
  intros Hg Hne old. unfold dispatch, handle_photo.
  rewrite Hg. change (default [] (Some g)) with g.
  rewrite (truthy_g g Hne).
  fold (caption_of u). fold (image_of u).
  unfold bindM at 1.
  destruct (decide (is_Some (_media_groups w !! g))) as [[grp Hgrp]|Hnone].
  - subst old. rewrite Hgrp. cbn [default from_option id].
    assert (_media_groups w = <[g:=grp]> (_media_groups w)) as Hw
      by (symmetry; by apply insert_id).
    destruct w as [uh groups ts nh t tr].
    cbn [_media_groups] in Hw, Hgrp. 
    destruct (truthy (caption_of u)); group_steps; rewrite Hw; group_steps;
      destruct (g_task grp); group_steps; reflexivity.
  - subst old. apply eq_None_not_Some in Hnone. rewrite Hnone.
    cbn [default from_option].
    destruct (truthy (caption_of u)); group_steps; reflexivity.
Qed.

(** X20.  A photo that carries a batch identifier is only buffered: no history
    changes, nothing is sent and the provider is not called.  Its image is
    added after the images the group already holds, the other groups are left
    alone, and the group's timer is the one just scheduled, due a quiet
    period from now. *)
Theorem batched_photo_is_buffered cfg net sm u w g :
  media_group_id u = Some g → g ≠ [] →
  let w' := dispatch (handle_photo cfg net sm u) w in
  let before := default [] (g_parts <$> _media_groups w !! g) in
  user_history w' = user_history w
  ∧ trace w' = trace w
  ∧ (∃ grp, _media_groups w' !! g = Some grp
            ∧ g_parts grp = before ++ [image_of u]
            ∧ g_task grp = Some (next_handle w))
  ∧ (∀ g', g' ≠ g → _media_groups w' !! g' = _media_groups w !! g')
  ∧ last (timers w')
    = Some {| t_id := next_handle w;
              t_due := (now w + _MEDIA_GROUP_TIMEOUT)%N; t_mgid := g |}.
Proof.
  intros Hg Hne w' before. subst w'.
  rewrite (run_photo_batched cfg net sm u w g Hg Hne).
  cbn [user_history trace _media_groups timers].
  split; [done|]. split; [done|]. split; [|split].
  - eexists. rewrite lookup_insert_eq. split; [done|]. cbn [g_parts g_task].
    split; [|done]. subst before. by destruct (_media_groups w !! g).
  - intros g' Hg'. by rewrite lookup_insert_ne.
  - apply last_snoc.
Qed.

Lemma batched_photo_is_buffered_witness :
  let u := photo_update 7 (Some (py "g1")) None [Byte.x01] in
  let w := with_history (insert 7 [user_turn (py "hi"); assistant_turn (py "hello")])
             empty_world in
  let w' := dispatch (handle_photo (sample_config (py "openai") 20) net_down id u) w in
  media_group_id u = Some (py "g1")
  ∧ py "g1" ≠ []
  ∧ user_history w' = user_history w
  ∧ trace w' = trace w.
Proof.
  cbv zeta.
  assert (media_group_id (photo_update 7 (Some (py "g1")) None [Byte.x01])
          = Some (py "g1")) as H1 by reflexivity.
  assert (py "g1" ≠ []) as H2 by done.
  split; [exact H1|]. split; [exact H2|].
  pose proof (batched_photo_is_buffered (sample_config (py "openai") 20) net_down id
                _ (with_history (insert 7 [user_turn (py "hi");
                                           assistant_turn (py "hello")]) empty_world)
                _ H1 H2) as (Hh & Ht & _).
  split; [exact Hh|exact Ht].
Defined.

Lemma run_flush cfg net sm g w :
  _flush_media_group cfg net sm g w
  = match _media_groups w !! g with
    | None => (Ok tt, with_groups (delete g) w)
    | Some grp =>
        _send_ai_reply cfg net sm (g_update grp) (g_uid grp)
          (CParts (g_parts grp
                   ++ [make_text_part (or_else (g_caption grp) PROMPT_MANY)]))
          (with_groups (delete g) w)
    end.
Proof.
  unfold _flush_media_group, bindM. by destruct (_media_groups w !! g).
Qed.

(** X21.  A flush for a batch that is not open, such as a timer that outlived its
    group, does nothing. *)
Theorem flush_without_group_is_a_no_op cfg net sm g w :
  _media_groups w !! g = None →
  _flush_media_group cfg net sm g w = (Ok tt, w).
Proof.
  intros Hnone. rewrite run_flush, Hnone. f_equal.
  destruct w as [uh groups ts nh t tr]. unfold with_groups. cbn in *.
  by rewrite delete_id.
Qed.

Lemma flush_without_group_is_a_no_op_witness :
  _media_groups empty_world !! py "g1" = None
  ∧ _flush_media_group (sample_config (py "openai") 20) net_down id (py "g1")
      empty_world
    = (Ok tt, empty_world).
Proof.
  assert (_media_groups empty_world !! py "g1" = None) as H by apply lookup_empty.
  split; [exact H|]. exact (flush_without_group_is_a_no_op _ _ _ _ _ H).
Defined.

(** ** [/clear] *)

Lemma run_cmd_clear upd w :
  cmd_clear upd w
  = (Ok tt,
     with_trace (λ t, t ++ [ReplyText (effective_chat upd) HISTORY_CLEARED])
       (with_history (insert (effective_user_id upd) []) w)).
Proof.
  unfold cmd_clear. unfold bindM at 1. rewrite run_history_of.
  unfold bindM, history_set, reply_text, emit. f_equal.
  unfold with_history, with_trace. cbn. f_equal. by rewrite insert_insert_eq.
Qed.

Lemma trimmed_short cfg (h : list item) :
  Z.of_nat (length h) ≤ 2 * MAX_HISTORY cfg → trimmed cfg h = h.
Proof.
  intros Hh. unfold trimmed.
  destruct (Z.gtb_spec (Z.of_nat (length h)) (MAX_HISTORY cfg * 2)); [lia|done].
Qed.

(** X22.  After [/clear] the user starts over: with [MAX_HISTORY >= 1] the next
    message reaches the provider as a history of that one turn, whatever was
    stored before; other users keep their history. *)
Theorem clear_starts_over cfg net sm upd c w :
  0 < MAX_HISTORY cfg →
  let uid := effective_user_id upd in
  let w1 := dispatch (cmd_clear upd) w in
  history_at w1 uid = []
  ∧ (∀ uid', uid' ≠ uid → history_at w1 uid' = history_at w uid')
  ∧ ∃ replies,
      trace (dispatch (_send_ai_reply cfg net sm upd uid c) w1)
      = trace w
        ++ [ReplyText (effective_chat upd) HISTORY_CLEARED;
            SendAction (effective_chat upd) (py "typing");
            AskAI [Item (py "user") c]]
        ++ (ReplyText (effective_chat upd) <$> replies).
Proof.
  intros Hm uid w1.
  assert (w1 = with_trace (λ t, t ++ [ReplyText (effective_chat upd) HISTORY_CLEARED])
                 (with_history (insert uid []) w)) as ->
    by (subst w1; unfold dispatch; by rewrite run_cmd_clear).
  change (history_at (with_trace ?f ?w) ?u) with (history_at w u).
  split; [apply history_at_insert|]. split.
  - intros uid' Hne. apply history_at_insert_ne. congruence.
  - destruct (send_shape cfg net sm upd uid c []) as (hist' & replies & Hsend).
    exists replies. rewrite Hsend by apply history_at_insert.
    rewrite trimmed_short by (simpl; lia).
    cbn [trace with_trace with_history]. by rewrite <- app_assoc.
Qed.

Lemma clear_starts_over_witness :
  let cfg := sample_config (py "openai") 20 in
  let upd := text_update 7 (py "/clear") in
  let w := with_history (insert 7 [user_turn (py "hi"); assistant_turn (py "hello")])
             empty_world in
  0 < MAX_HISTORY cfg
  ∧ history_at (dispatch (cmd_clear upd) w) 7 = []
  ∧ ∃ replies,
      trace (dispatch (_send_ai_reply cfg net_down id upd 7 (CStr (py "again")))
               (dispatch (cmd_clear upd) w))
      = trace w
        ++ [ReplyText 7 HISTORY_CLEARED; SendAction 7 (py "typing");
            AskAI [Item (py "user") (CStr (py "again"))]]
        ++ (ReplyText 7 <$> replies).
Proof.
  cbv zeta.
  assert (0 < MAX_HISTORY (sample_config (py "openai") 20)) as H by done.
  split; [exact H|].
  pose proof (clear_starts_over (sample_config (py "openai") 20) net_down id
                (text_update 7 (py "/clear")) (CStr (py "again"))
                (with_history (insert 7 [user_turn (py "hi");
                                         assistant_turn (py "hello")]) empty_world)
                H) as (H1 & _ & H3).
  split; [exact H1|exact H3].
Defined.

(** X23.  A photo that comes a quiet period or more after the one before is too
    late for its album: the first photo has been sent as a turn of its own,
    and the late one opens the batch again, alone. *)
Theorem late_photo_opens_the_batch_again cfg net sm g w0 u1 u2 (gap : N) :
  g ≠ [] →
  _media_groups w0 !! g = None →
  timers w0 = [] →
  media_group_id u1 = Some g →
  media_group_id u2 = Some g →
  (_MEDIA_GROUP_TIMEOUT ≤ gap)%N →
  let uid := effective_user_id u1 in
  let turn :=
    CParts [image_of u1; make_text_part (or_else (caption_of u1) PROMPT_MANY)] in
  let w2 := dispatch (handle_photo cfg net sm u2)
              (elapse cfg net sm gap (dispatch (handle_photo cfg net sm u1) w0)) in
  (∃ replies : list pystr,
     trace w2
     = trace w0
       ++ [SendAction (effective_chat u1) (py "typing");
           AskAI (trimmed cfg (history_at w0 uid ++ [Item (py "user") turn]))]
       ++ (ReplyText (effective_chat u1) <$> replies))
  ∧ ∃ grp, _media_groups w2 !! g = Some grp ∧ g_parts grp = [image_of u2].
Proof.
  intros Hg Hnone Hts Hu1 Hu2 Hgap uid turn w2. subst w2.
  rewrite (photo_opens cfg net sm g Hg u1 w0 Hu1 Hnone Hts).
  rewrite elapse_flush by (done || lia).
  assert (or_else (if truthy (caption_of u1) then caption_of u1 else []) PROMPT_MANY
          = or_else (caption_of u1) PROMPT_MANY) as ->
    by (unfold or_else; by destruct (truthy (caption_of u1)) eqn:E; rewrite ?E).
  destruct (send_shape cfg net sm u1 uid turn (history_at w0 uid))
    as (hist' & replies & Hsend).
  change ([image_of u1] ++ [make_text_part (or_else (caption_of u1) PROMPT_MANY)])
    with [image_of u1; make_text_part (or_else (caption_of u1) PROMPT_MANY)].
  fold turn. fold uid. rewrite Hsend by reflexivity.
  rewrite (run_photo_batched cfg net sm u2 _ g Hu2 Hg).
  cbn [trace _media_groups with_now with_trace with_history with_next_handle
       with_timers user_history timers next_handle now].
  split; [by exists replies|].
  eexists. rewrite lookup_insert_eq. split; [done|]. cbn [g_parts].
  by rewrite Hnone.
Qed.

Lemma late_photo_opens_the_batch_again_witness :
  let cfg := sample_config (py "openai") 20 in
  let g := py "g1" in
  let u1 := photo_update 7 (Some g) None [Byte.x01] in
  let u2 := photo_update 7 (Some g) (Some (py "and this?")) [Byte.x02] in
  let w2 := dispatch (handle_photo cfg net_down id u2)
              (elapse cfg net_down id 1500
                 (dispatch (handle_photo cfg net_down id u1) empty_world)) in
  g ≠ []
  ∧ _media_groups empty_world !! g = None
  ∧ timers empty_world = []
  ∧ media_group_id u1 = Some g
  ∧ media_group_id u2 = Some g
  ∧ (_MEDIA_GROUP_TIMEOUT ≤ 1500)%N
  ∧ ∃ grp, _media_groups w2 !! g = Some grp ∧ g_parts grp = [image_of u2].
Proof.
  cbv zeta.
  assert (py "g1" ≠ []) as H1 by done.
  assert (_media_groups empty_world !! py "g1" = None) as H2 by apply lookup_empty.
  assert (timers empty_world = []) as H3 by reflexivity.
  assert (media_group_id (photo_update 7 (Some (py "g1")) None [Byte.x01])
          = Some (py "g1")) as H4 by reflexivity.
  assert (media_group_id (photo_update 7 (Some (py "g1")) (Some (py "and this?"))
                            [Byte.x02]) = Some (py "g1")) as H5 by reflexivity.
  assert (_MEDIA_GROUP_TIMEOUT ≤ 1500)%N as H6 by reflexivity.
  split; [exact H1|]. split; [exact H2|]. split; [exact H3|].
  split; [exact H4|]. split; [exact H5|]. split; [exact H6|].
  exact (proj2 (late_photo_opens_the_batch_again (sample_config (py "openai") 20)
                  net_down id (py "g1") empty_world _ _ 1500%N H1 H2 H3 H4 H5 H6)).
Defined.

(** ** What every handler keeps *)

Lemma trimmed_is_drop cfg (h : list item) : ∃ n, trimmed cfg h = drop n h.
Proof.
  unfold trimmed, slice_from.
  destruct (Z.of_nat (length h) >? MAX_HISTORY cfg * 2); [eauto|by exists 0%nat].
Qed.

Lemma Forall_trimmed (P : item → Prop) cfg h : Forall P h → Forall P (trimmed cfg h).
Proof. intros Hh. destruct (trimmed_is_drop cfg h) as [n ->]. by apply Forall_drop. Qed.

Lemma Forall_removelast {A} (P : A → Prop) (l : list A) :
  Forall P l → Forall P (removelast l).
Proof.
  induction 1 as [|x l Hx Hl IH]; [constructor|].
  cbn [removelast]. destruct l; [constructor|]. by constructor.
Qed.

Lemma length_removelast_le {A} (l : list A) : (length (removelast l) ≤ length l)%nat.
Proof.
  induction l as [|x l IH]; [done|]. cbn [removelast].
  destruct l; cbn [length] in *; lia.
Qed.

Lemma length_trimmed cfg (h : list item) :
  0 < MAX_HISTORY cfg → Z.of_nat (length (trimmed cfg h)) ≤ 2 * MAX_HISTORY cfg.
Proof. intros Hm. rewrite trimmed_drop by done. rewrite length_drop. lia. Qed.

Lemma stored_user_turn c : sendable c → stored_turn (Item (py "user") c).
Proof. intros Hc. left. split; [done|]. by destruct c. Qed.

Lemma stored_assistant_turn s :
  no_outer_space s → stored_turn (Item (py "assistant") (CStr s)).
Proof. intros Hs. right. split; [done|]. eauto. Qed.

Lemma history_at_set uid uid' h w :
  history_at (with_history (insert uid h) w) uid'
  = if decide (uid = uid') then h else history_at w uid'.
Proof.
  destruct (decide (uid = uid')) as [->|Hne].
  - apply history_at_insert.
  - by apply history_at_insert_ne.
Qed.

(** Setting one history to a good list keeps the state well formed. *)
Lemma well_formed_set cfg uid h (f : list effect → list effect) w :
  well_formed cfg w →
  Forall stored_turn h →
  (0 < MAX_HISTORY cfg → Z.of_nat (length h) ≤ 2 * MAX_HISTORY cfg) →
  well_formed cfg (with_trace f (with_history (insert uid h) w)).
Proof.
  intros (H1 & H2 & H3) Hh Hlen. split; [|split].
  - intros uid'. change (history_at (with_trace ?f ?w) ?u) with (history_at w u).
    rewrite history_at_set. by destruct (decide _).
  - intros Hm uid'. change (history_at (with_trace ?f ?w) ?u) with (history_at w u).
    rewrite history_at_set. destruct (decide _); auto.
  - exact H3.
Qed.

(** A change that leaves both dicts alone keeps the state well formed. *)
Lemma well_formed_same cfg w w' :
  user_history w' = user_history w → _media_groups w' = _media_groups w →
  well_formed cfg w → well_formed cfg w'.
Proof.
  intros Hh Hg (H1 & H2 & H3). unfold well_formed, history_at.
  rewrite Hh, Hg. by repeat split.
Qed.

Lemma well_formed_send cfg net sm upd uid c w :
  well_formed cfg w → sendable c →
  well_formed cfg (dispatch (_send_ai_reply cfg net sm upd uid c) w).
Proof.
  intros Hw Hc.
  assert (Forall stored_turn (trimmed cfg (history_at w uid ++ [Item (py "user") c])))
    as Hh1.
  { apply Forall_trimmed, Forall_app. split; [apply Hw|].
    constructor; [by apply stored_user_turn|constructor]. }
  destruct (ask_ai cfg net (trimmed cfg (history_at w uid ++ [Item (py "user") c])))
    as [reply|e] eqn:Hask.
  - destruct (run_send_success cfg net sm upd uid c w reply Hask)
      as (chunks & _ & ->).
    apply well_formed_set; [done| |by apply length_trimmed].
    apply Forall_trimmed, Forall_app. split; [done|].
    constructor; [|constructor].
    apply stored_assistant_turn. by apply (ask_ai_stripped cfg net _ _ Hask).
  - rewrite (run_send_failure cfg net sm upd uid c w e Hask).
    apply well_formed_set; [done|by apply Forall_removelast|].
    intros Hm. pose proof (length_trimmed cfg
                             (history_at w uid ++ [Item (py "user") c]) Hm).
    pose proof (length_removelast_le
                  (trimmed cfg (history_at w uid ++ [Item (py "user") c]))).
    lia.
Qed.

Lemma well_formed_delete cfg g w :
  well_formed cfg w → well_formed cfg (with_groups (delete g) w).
Proof.
  intros (H1 & H2 & H3). split; [exact H1|]. split; [exact H2|].
  intros g' grp. unfold with_groups. cbn [_media_groups].
  intros Hl. apply lookup_delete_Some in Hl as [_ Hl]. eauto.
Qed.

Lemma constructed_text t : constructed (make_text_part t).
Proof. left. eauto. Qed.

Lemma constructed_image data mime : constructed (encode_image_bytes data mime).
Proof. right. left. eauto. Qed.

Lemma constructed_pdf t : constructed (make_pdf_part t).
Proof. right. right. eauto. Qed.

Lemma sendable_snoc ps p :
  Forall constructed ps → constructed p → sendable (CParts (ps ++ [p])).
Proof.
  intros Hps Hp. split; [by destruct ps|].
  apply Forall_app. split; [done|]. by constructor.
Qed.

Lemma well_formed_flush cfg net sm g w :
  well_formed cfg w →
  well_formed cfg (dispatch (_flush_media_group cfg net sm g) w).
Proof.
  intros Hw. unfold dispatch. rewrite run_flush.
  destruct (_media_groups w !! g) as [grp|] eqn:Hg.
  - apply well_formed_send; [by apply well_formed_delete|].
    apply sendable_snoc; [|apply constructed_text].
    destruct Hw as (_ & _ & H3). eauto.
  - cbn [snd]. by apply well_formed_delete.
Qed.

Lemma well_formed_run_timers cfg net sm fuel deadline w :
  well_formed cfg w → well_formed cfg (run_timers cfg net sm fuel deadline w).
Proof.
  revert w. induction fuel as [|fuel IH]; intros w Hw; [done|].
  cbn [run_timers]. destruct (first_due deadline (timers w)) as [t|]; [|done].
  apply IH, well_formed_flush. by apply (well_formed_same cfg w).
Qed.

Lemma well_formed_elapse cfg net sm d w :
  well_formed cfg w → well_formed cfg (elapse cfg net sm d w).
Proof.
  intros Hw. unfold elapse.
  eapply well_formed_same; [| |by apply well_formed_run_timers]; done.
Qed.

Lemma well_formed_text cfg net sm upd w :
  well_formed cfg w → well_formed cfg (dispatch (handle_text cfg net sm upd) w).
Proof.
  intros Hw. unfold handle_text.
  destruct (truthy (strip (message_text upd))) eqn:Ht; cbn [negb]; [|done].
  apply well_formed_send; [done|]. split; [|apply strip_no_outer_space].
  intros E. by rewrite E in Ht.
Qed.

Lemma well_formed_photo cfg net sm upd w :
  well_formed cfg w → well_formed cfg (dispatch (handle_photo cfg net sm upd) w).
Proof.
  intros Hw.
  destruct (media_group_id upd) as [g|] eqn:Hg.
  - destruct (decide (g = [])) as [->|Hne].
    + unfold handle_photo. rewrite Hg. cbn [default from_option truthy id].
      apply well_formed_send; [done|].
      apply (sendable_snoc [_]); [|apply constructed_text].
      constructor; [apply constructed_image|constructor].
    + rewrite (run_photo_batched cfg net sm upd w g Hg Hne).
      destruct Hw as (H1 & H2 & H3). split; [exact H1|]. split; [exact H2|].
      intros g' grp. cbn [_media_groups]. intros Hl.
      apply lookup_insert_Some in Hl as [[_ <-]|[_ Hl]]; [|eauto].
      cbn [g_parts]. apply Forall_app. split.
      * destruct (_media_groups w !! g) as [old|] eqn:Hold; cbn; [eauto|constructor].
      * constructor; [apply constructed_image|constructor].
  - unfold handle_photo. rewrite Hg. cbn [default from_option truthy id].
    apply well_formed_send; [done|].
    apply (sendable_snoc [_]); [|apply constructed_text].
    constructor; [apply constructed_image|constructor].
Qed.

Lemma well_formed_emit cfg e w :
  well_formed cfg w → well_formed cfg (dispatch (emit e) w).
Proof. by apply well_formed_same. Qed.

Lemma well_formed_document cfg net sm lower read_pdf upd doc w :
  well_formed cfg w →
  well_formed cfg (dispatch (handle_document cfg net sm lower read_pdf upd doc) w).
Proof.
  intros Hw. unfold handle_document.
  destruct (startswith (default [] (mime_type doc)) (py "image/")).
  { apply well_formed_send; [done|].
    apply (sendable_snoc [_]); [|apply constructed_text].
    constructor; [apply constructed_image|constructor]. }
  assert (∀ w0, well_formed cfg w0 →
            well_formed cfg
              (dispatch
                 (emit (SendAction (effective_chat upd) (py "typing")) ;;
                  (if truthy (strip (default [] (message_caption upd)))
                   then _send_ai_reply cfg net sm upd (effective_user_id upd)
                          (CParts ([make_pdf_part
                                      (extract_pdf_text read_pdf (file_bytes doc))]
                                   ++ [make_text_part
                                         (strip (default [] (message_caption upd)))]))
                   else history_append (effective_user_id upd)
                          (Item (py "user")
                             (CParts [make_pdf_part
                                        (extract_pdf_text read_pdf (file_bytes doc))])) ;;
                        _trim_history cfg (effective_user_id upd) ;;
                        reply_text upd PDF_STORED)) w0)) as Hpdf.
  { intros w0 Hw0. unfold dispatch. unfold bindM at 1. unfold emit at 1.
    assert (well_formed cfg
              (with_trace (λ t, t ++ [SendAction (effective_chat upd) (py "typing")]) w0))
      as Hw1 by (by apply (well_formed_same cfg w0)).
    destruct (truthy (strip (default [] (message_caption upd)))).
    - apply well_formed_send; [done|].
      apply (sendable_snoc [_]); [|apply constructed_text].
      constructor; [apply constructed_pdf|constructor].
    - unfold bindM at 1. rewrite run_history_append.
      unfold bindM at 1. rewrite run_trim_history.
      rewrite history_at_insert, with_history_insert2.
      unfold reply_text, emit. cbn [snd].
      apply well_formed_set; [done| |by apply length_trimmed].
      apply Forall_trimmed, Forall_app. split; [apply Hw1|].
      constructor; [|constructor]. apply stored_user_turn.
      split; [done|]. constructor; [apply constructed_pdf|constructor]. }
  unfold dispatch in *. unfold bindM at 1.
  destruct (decide (default [] (mime_type doc) = py "application/pdf")).
  { unfold ret. by apply Hpdf. }
  destruct (file_name doc) as [name|]; [|done].
  unfold ret. destruct (endswith (lower name) (py ".pdf")); [by apply Hpdf|].
  by apply (well_formed_same cfg w).
Qed.

Lemma well_formed_clear cfg upd w :
  well_formed cfg w → well_formed cfg (dispatch (cmd_clear upd) w).
Proof.
  intros Hw. unfold dispatch. rewrite run_cmd_clear. cbn [snd].
  apply well_formed_set; [done|constructor|]. simpl. lia.
Qed.

Lemma well_formed_handle cfg net sm lower read_pdf e w :
  well_formed cfg w → well_formed cfg (handle cfg net sm lower read_pdf e w).
Proof.
  intros Hw. destruct e; cbn [handle].
  - by apply well_formed_text.
  - by apply well_formed_photo.
  - by apply well_formed_document.
  - by apply well_formed_clear.
  - by apply (well_formed_same cfg w).
  - by apply well_formed_elapse.
Qed.

Lemma well_formed_empty cfg : well_formed cfg empty_world.
Proof.
  split; [|split].
  - intros uid. constructor.
  - intros Hm uid. unfold history_at. cbn. rewrite lookup_empty. simpl. lia.
  - intros g grp Hl. cbn in Hl. by rewrite lookup_empty in Hl.
Qed.

Lemma well_formed_run cfg net sm lower read_pdf es w :
  well_formed cfg w → well_formed cfg (run cfg net sm lower read_pdf es w).
Proof.
  revert w. induction es as [|e es IH]; intros w Hw; [done|].
  cbn [run fold_left]. apply IH. by apply well_formed_handle.
Qed.

(** X24.  Every handler keeps the state well formed, and so does the passing of
    time: the histories hold stored turns only (a user turn with a non-empty
    stripped text or a non-empty list of parts out of the three constructors,
    or an assistant turn with a stripped text), no longer than
    [2 * MAX_HISTORY] when that is positive, and the open groups hold
    constructed parts only. *)
Theorem handlers_keep_the_state_well_formed cfg net sm lower read_pdf e w :
  well_formed cfg w → well_formed cfg (handle cfg net sm lower read_pdf e w).
Proof. apply well_formed_handle. Qed.

Lemma handlers_keep_the_state_well_formed_witness :
  let cfg := sample_config (py "openai") 20 in
  well_formed cfg empty_world
  ∧ well_formed cfg
      (handle cfg (net_answer (py "hi")) id ascii_lower (pdf_pages [])
         (TextMessage (text_update 7 (py "hello"))) empty_world).
Proof.
  pose proof (well_formed_empty (sample_config (py "openai") 20)) as H.
  split; [exact H|].
  exact (handlers_keep_the_state_well_formed _ _ _ _ _ _ _ H).
Defined.

(** X25.  From the start of the process on, after any sequence of messages,
    commands and waits, every stored history has at most [2 * MAX_HISTORY]
    entries (for a positive [MAX_HISTORY]). *)
Theorem history_stays_bounded cfg net sm lower read_pdf (es : list event) (uid : Z) :
  0 < MAX_HISTORY cfg →
  Z.of_nat (length (history_at (run cfg net sm lower read_pdf es empty_world) uid))
  ≤ 2 * MAX_HISTORY cfg.
Proof.
  intros Hm.
  destruct (well_formed_run cfg net sm lower read_pdf es empty_world
              (well_formed_empty cfg)) as (_ & H2 & _).
  by apply H2.
Qed.

Lemma history_stays_bounded_witness :
  let cfg := sample_config (py "openai") 1 in
  let es := [TextMessage (text_update 7 (py "one"));
             TextMessage (text_update 7 (py "two"));
             PhotoMessage (photo_update 7 None None [Byte.x01])] in
  0 < MAX_HISTORY cfg
  ∧ Z.of_nat (length (history_at
                        (run cfg (net_answer (py "ok")) id ascii_lower (pdf_pages [])
                           es empty_world) 7))
    ≤ 2 * MAX_HISTORY cfg.
Proof.
  split; [done|].
  apply (history_stays_bounded (sample_config (py "openai") 1)). done.
Defined.

Lemma constructed_complete p : constructed p → missing_key p = None.
Proof. by intros [[t ->]|[(d & m & ->)|[t ->]]]. Qed.

Lemma stored_turn_complete it : stored_turn it → complete_parts it.
Proof.
  unfold stored_turn, complete_parts.
  intros [[_ Hc]|[_ (s & -> & _)]]; [|done].
  destruct (item_content it) as [s|ps]; [done|].
  destruct Hc as [_ Hps]. eapply Forall_impl; [exact Hps|].
  apply constructed_complete.
Qed.

Lemma complete_history_serializes h :
  Forall complete_parts h →
  (∃ ms, _build_openai_messages h = Ok ms)
  ∧ (∃ cs, _build_gemini_contents h = Ok cs)
  ∧ (∃ ms, _build_anthropic_messages h = Ok ms).
Proof.
  intros Hh. split; [|split]; apply mapM_Forall_ok;
    (eapply Forall_impl; [exact Hh|]); intros it Hit; unfold complete_parts in Hit.
  - unfold openai_message. destruct (item_content it) as [s|ps]; [by eexists|].
    destruct (parts_loop_complete openai_part ps
                (part_ok_of_complete _ openai_part_missing) Hit) as [ws ->].
    by eexists.
  - unfold gemini_content. destruct (item_content it) as [s|ps]; [by eexists|].
    destruct (parts_loop_complete gemini_part ps
                (part_ok_of_complete _ gemini_part_missing) Hit) as [ws ->].
    by eexists.
  - unfold anthropic_message. destruct (item_content it) as [s|ps]; [by eexists|].
    destruct (parts_loop_complete anthropic_part ps
                (part_ok_of_complete _ anthropic_part_missing) Hit) as [ws ->].
    by eexists.
Qed.

(** X26.  From the start of the process on, after any sequence of messages,
    commands and waits, every stored history goes through the three
    serializers without an exception: the handlers never store a part that
    lacks a key. *)
Theorem stored_histories_serialize cfg net sm lower read_pdf (es : list event)
    (uid : Z) :
  let h := history_at (run cfg net sm lower read_pdf es empty_world) uid in
  (∃ ms, _build_openai_messages h = Ok ms)
  ∧ (∃ cs, _build_gemini_contents h = Ok cs)
  ∧ (∃ ms, _build_anthropic_messages h = Ok ms).
Proof.
  intros h. apply complete_history_serializes.
  destruct (well_formed_run cfg net sm lower read_pdf es empty_world
              (well_formed_empty cfg)) as (H1 & _ & _).
  eapply Forall_impl; [apply H1|]. apply stored_turn_complete.
Qed.

Lemma failed_send_full_witness :
  let cfg := sample_config (py "openai") 1 in
  let w := with_history (insert 7 [user_turn (py "q1"); assistant_turn (py "a1")])
             empty_world in
  let c := CStr (py "q2") in
  let h' := history_at
              (dispatch (_send_ai_reply cfg net_down id (text_update 7 (py "q2")) 7 c)
                 w) 7 in
  0 < MAX_HISTORY cfg
  ∧ 2 * MAX_HISTORY cfg ≤ Z.of_nat (length (history_at w 7))
  ∧ ask_ai cfg net_down (trimmed cfg (history_at w 7 ++ [Item (py "user") c]))
    = Raise (ProviderError (py "503 Service Unavailable"))
  ∧ Z.of_nat (length h') = 2 * MAX_HISTORY cfg - 1
  ∧ h' = drop (length (history_at w 7) + 1 - Z.to_nat (2 * MAX_HISTORY cfg))
           (history_at w 7).
Proof.
  set (w := with_history (insert 7 [user_turn (py "q1"); assistant_turn (py "a1")])
              empty_world).
  assert (history_at w 7 = [user_turn (py "q1"); assistant_turn (py "a1")]) as Hw
    by apply history_at_insert.
  assert (0 < MAX_HISTORY (sample_config (py "openai") 1)) as H1 by done.
  assert (2 * MAX_HISTORY (sample_config (py "openai") 1)
          ≤ Z.of_nat (length (history_at w 7))) as H2 by (rewrite Hw; done).
  assert (ask_ai (sample_config (py "openai") 1) net_down
            (trimmed (sample_config (py "openai") 1)
               (history_at w 7 ++ [Item (py "user") (CStr (py "q2"))]))
          = Raise (ProviderError (py "503 Service Unavailable"))) as H3
    by (rewrite Hw; reflexivity).
  cbv zeta. split; [exact H1|]. split; [exact H2|]. split; [exact H3|].
  exact (failed_send_full _ net_down id (text_update 7 (py "q2")) 7 _ w _ H1 H2 H3).
Defined.
